(** * SSnote: the pencode renderer of [SSnote.py]

    A shallow embedding of the pure core of [SSnote.py]
    ([encode_byondish_html], [station_time_text], [station_date_text],
    [resolved_signature], [_replace_in_order], [render_pencode_to_html])
    and the properties of it that the specification states.

    Python's [str] is a sequence of Unicode code points: a string is a
    list of code points, a code point is a number in [N].  The methods of
    [str] that the program calls ([replace], [count], [in], [strip]) and
    [html.escape] are modelled in [PyStr] after CPython's behaviour.

    The renderer is embedded twice: as a function on strings, which
    the properties are stated about, and as a function on values that
    returns a result or the exception a method call raised, which the
    first is shown to agree with on the arguments the annotations
    name. *)

From Stdlib Require Import List NArith ZArith Bool Arith Lia String Ascii.
Import ListNotations.

Local Open Scope N_scope.
Local Open Scope list_scope.

(** ** Python strings *)

Module PyStr.

Definition char := N.
Definition pystr := list char.

(** A literal of the source, written as a Rocq string of ASCII. *)
Fixpoint lit (s : string) : pystr :=
  match s with
  | EmptyString => []
  | String a r => N_of_ascii a :: lit r
  end.

(** The characters the source names that a Rocq literal cannot hold. *)
Definition dquote : char := 34.
Definition CR : char := 13.
Definition LF : char := 10.
Definition LSEP : char := 8232.   (* U+2028 *)
Definition PSEP : char := 8233.   (* U+2029 *)

(** [s.startswith(p)] *)
Fixpoint starts_with (p s : pystr) : bool :=
  match p, s with
  | [], _ => true
  | _ :: _, [] => false
  | a :: p', b :: s' => (a =? b) && starts_with p' s'
  end.

(** [s.replace(old, new)] for a non-empty [old]: scan left to right; at
    an occurrence of [old] emit [new] and jump over the occurrence
    ([skip] counts the characters of it still to jump over), else copy
    one character. *)
Fixpoint replace_from (old new s : pystr) (skip : nat) : pystr :=
  match s with
  | [] => []
  | c :: rest =>
      match skip with
      | S k => replace_from old new rest k
      | O =>
          if starts_with old s
          then new ++ replace_from old new rest (Nat.pred (List.length old))
          else c :: replace_from old new rest 0
      end
  end.

(** [s.replace(old, new)]; with an empty [old] Python puts [new] before
    every character and at the end. *)
Definition replace (old new s : pystr) : pystr :=
  match old with
  | [] => new ++ flat_map (fun c => c :: new) s
  | _ :: _ => replace_from old new s 0
  end.

(** [s.count(sub)]: the occurrences that do not overlap, left to right. *)
Fixpoint count_from (sub s : pystr) (skip : nat) : nat :=
  match s with
  | [] => O
  | _ :: rest =>
      match skip with
      | S k => count_from sub rest k
      | O =>
          if starts_with sub s
          then S (count_from sub rest (Nat.pred (List.length sub)))
          else count_from sub rest 0
      end
  end.

Definition count (sub s : pystr) : nat :=
  match sub with
  | [] => S (List.length s)
  | _ :: _ => count_from sub s 0
  end.

(** [sub in s] *)
Fixpoint contains (sub s : pystr) : bool :=
  starts_with sub s ||
  match s with
  | [] => false
  | _ :: rest => contains sub rest
  end.

(** [c.isspace()]: the code points CPython's [str.strip()] removes. *)
Definition isspace (c : char) : bool :=
  ((9 <=? c) && (c <=? 13)) || ((28 <=? c) && (c <=? 32)) ||
  (c =? 133) || (c =? 160) || (c =? 5760) ||
  ((8192 <=? c) && (c <=? 8202)) ||
  (c =? 8232) || (c =? 8233) || (c =? 8239) || (c =? 8287) || (c =? 12288).

Fixpoint lstrip (s : pystr) : pystr :=
  match s with
  | [] => []
  | c :: rest => if isspace c then lstrip rest else s
  end.

Definition rstrip (s : pystr) : pystr := rev (lstrip (rev s)).

(** [s.strip()] *)
Definition strip (s : pystr) : pystr := rstrip (lstrip s).

(** Truthiness of a [str]. *)
Definition truthy (s : pystr) : bool :=
  match s with [] => false | _ :: _ => true end.

(** [html.escape(s, quote)] of the standard library: five calls of
    [replace] in a row, the ampersand first, then the less-than and
    greater-than signs and, when [quote] is set, the double quote and
    the apostrophe (the last one to the reference &#x27;). *)
Definition html_escape (s : pystr) (quote : bool) : pystr :=
  let s := replace (lit "&") (lit "&amp;") s in
  let s := replace (lit "<") (lit "&lt;") s in
  let s := replace (lit ">") (lit "&gt;") s in
  if quote then
    let s := replace [dquote] (lit "&quot;") s in
    let s := replace (lit "'") (lit "&#x27;") s in
    s
  else s.

(** The last decimal digit of [n] as a character. *)
Definition digit (n : N) : char := 48 + n mod 10.

(** [n] in two digits, zero-padded, as [strftime]'s [%H], [%M], [%m] and
    [%d] print a field of a [datetime]. *)
Definition pad2 (n : N) : pystr := [digit (n / 10); digit n].

(** [n] in decimal without padding, as [strftime]'s [%Y] prints the year
    with the C library of Linux: 999 for the year 999 (four digits from
    the year 1000 on).  [fuel] bounds the number of digits. *)
Fixpoint decimal_from (fuel : nat) (n : N) (acc : pystr) : pystr :=
  match fuel with
  | O => acc
  | S fuel' =>
      if n <? 10 then digit n :: acc
      else decimal_from fuel' (n / 10) (digit n :: acc)
  end.

Definition decimal (n : N) : pystr := decimal_from (S (N.size_nat n)) n [].

End PyStr.

Import PyStr.

(** ** The program *)

(** [datetime.datetime], the fields the program prints. *)
Record datetime := mkDatetime {
  year : N;
  month : N;
  day : N;
  hour : N;
  minute : N
}.

Record PaperConfig := mkPaperConfig {
  station_name : pystr;
  default_font : pystr;
  sign_font : pystr;
  crayon_font : pystr;
  pen_color : pystr
}.

(** [PaperConfig()] with the defaults of the dataclass. *)
Definition default_config : PaperConfig :=
  {| station_name := lit "NSS Example";
     default_font := lit "Verdana";
     sign_font := lit "Times New Roman";
     crayon_font := lit "Comic Sans MS";
     pen_color := lit "black" |}.

Definition encode_byondish_html (text : pystr) : pystr :=
  let escaped := html_escape text true in
  replace (lit "'") (lit "&#39;") escaped.

Section Clock.

(** What [datetime.datetime.now()] returns when it is called: the one
    thing the program reads from its environment. *)
Variable clock : datetime.

(** [now or datetime.datetime.now()]; a [datetime] is always truthy. *)
Definition now_or_clock (now : option datetime) : datetime :=
  match now with
  | Some t => t
  | None => clock
  end.

Definition station_time_text (now : option datetime) : pystr :=
  let t := now_or_clock now in
  pad2 (hour t) ++ lit ":" ++ pad2 (minute t).

Definition station_date_text (now : option datetime) : pystr :=
  let t := now_or_clock now in
  decimal (year t) ++ lit "-" ++ pad2 (month t) ++ lit "-" ++ pad2 (day t).

(** The condition [x and x.strip()]: the stripped text when [x] is not
    [None], not empty and not blank. *)
Definition nonblank (x : option pystr) : option pystr :=
  match x with
  | Some s => if truthy s && truthy (strip s) then Some (strip s) else None
  | None => None
  end.

Definition resolved_signature (signature user_name : option pystr) : pystr :=
  match nonblank signature with
  | Some s => s
  | None =>
      match nonblank user_name with
      | Some u => u
      | None => lit "Anonymous"
      end
  end.

Fixpoint _replace_in_order (text : pystr)
    (replacements : list (pystr * pystr)) : pystr :=
  match replacements with
  | [] => text
  | (needle, repl) :: more => _replace_in_order (replace needle repl text) more
  end.

(** The chain of [replace] calls on the escaped text. *)
Definition strip_newlines (html_text : pystr) : pystr :=
  replace [PSEP] []
    (replace [LSEP] []
       (replace [CR] []
          (replace [LF] []
             (replace [CR; LF] [] html_text)))).

Definition nbsp6 : pystr :=
  lit "&nbsp;" ++ lit "&nbsp;" ++ lit "&nbsp;" ++
  lit "&nbsp;" ++ lit "&nbsp;" ++ lit "&nbsp;".

Definition field_span : pystr :=
  lit "<span class=" ++ dquote :: lit "paper_field" ++ dquote :: lit "></span>".

Definition common_replacements (paper_config : PaperConfig)
    (now : datetime) : list (pystr * pystr) :=
  [ (lit "[center]", lit "<center>");
    (lit "[/center]", lit "</center>");
    (lit "[br]", lit "<BR>");
    (lit "[b]", lit "<B>");
    (lit "[/b]", lit "</B>");
    (lit "[i]", lit "<I>");
    (lit "[/i]", lit "</I>");
    (lit "[u]", lit "<U>");
    (lit "[/u]", lit "</U>");
    (lit "[time]", station_time_text (Some now));
    (lit "[date]", station_date_text (Some now));
    (lit "[station]", station_name paper_config);
    (lit "[large]", lit "<font size=" ++ dquote :: lit "4" ++ dquote :: lit ">");
    (lit "[/large]", lit "</font>");
    (lit "[field]", field_span);
    (lit "[h1]", lit "<H1>");
    (lit "[/h1]", lit "</H1>");
    (lit "[h2]", lit "<H2>");
    (lit "[/h2]", lit "</H2>");
    (lit "[h3]", lit "<H3>");
    (lit "[/h3]", lit "</H3>");
    (lit "[tab]", nbsp6) ].

(** The f-string of [signature_html]: the sign font in the face
    attribute, the signature text in italics. *)
Definition signature_html (paper_config : PaperConfig)
    (signature_text : pystr) : pystr :=
  lit "<font face=" ++ dquote :: sign_font paper_config ++
  dquote :: lit "><i>" ++ signature_text ++ lit "</i></font>".

(** The block guarded by the test that [[sign]] occurs in [html_text]. *)
Definition sign_stage (paper_config : PaperConfig)
    (user_name signature : option pystr) (html_text : pystr) : pystr :=
  if contains (lit "[sign]") html_text then
    let signature_text :=
      encode_byondish_html (resolved_signature signature user_name) in
    replace (lit "[sign]") (signature_html paper_config signature_text) html_text
  else html_text.

Definition restricted_tokens : list pystr :=
  [ lit "[*]"; lit "[hr]"; lit "[small]"; lit "[/small]"; lit "[list]";
    lit "[/list]"; lit "[table]"; lit "[/table]"; lit "[row]"; lit "[cell]";
    lit "[/cell]"; lit "[/row]"; lit "[logo]"; lit "[sglogo]" ].

(** The loop over [restricted_tokens], each replaced by the empty string. *)
Fixpoint strip_tokens (tokens : list pystr) (html_text : pystr) : pystr :=
  match tokens with
  | [] => html_text
  | token :: more => strip_tokens more (replace token [] html_text)
  end.

Definition crayon_wrap (paper_config : PaperConfig) (html_text : pystr) : pystr :=
  lit "<font face=" ++ dquote :: crayon_font paper_config ++
  dquote :: lit " color=" ++ pen_color paper_config ++ lit ">" ++
  lit "<b>" ++ html_text ++ lit "</b></font>".

Definition table_open : pystr :=
  lit "<table border=1 cellspacing=0 cellpadding=3 style='border: 1px solid black;'>".

Definition pen_only_replacements : list (pystr * pystr) :=
  [ (lit "[*]", lit "<li>");
    (lit "[hr]", lit "<HR>");
    (lit "[small]", lit "<font size=" ++ dquote :: lit "1" ++ dquote :: lit ">");
    (lit "[/small]", lit "</font>");
    (lit "[list]", lit "<ul>");
    (lit "[/list]", lit "</ul>");
    (lit "[table]", table_open);
    (lit "[/table]", lit "</td></tr></table>");
    (lit "[grid]", lit "<table>");
    (lit "[/grid]", lit "</td></tr></table>");
    (lit "[row]", lit "</td><tr>");
    (lit "[/row]", []);
    (lit "[cell]", lit "<td>");
    (lit "[/cell]", []);
    (lit "[logo]", lit "<img src=\ref['html/images/ntlogo.png']>");
    (lit "[sglogo]", lit "<img src=\ref['html/images/sglogo.png']>");
    (lit "[trlogo]", lit "<img src=\ref['html/images/trader.png']>");
    (lit "[pclogo]", lit "<img src=\ref['html/images/pclogo.png']>") ].

Definition pen_wrap (paper_config : PaperConfig) (html_text : pystr) : pystr :=
  lit "<font face=" ++ dquote :: default_font paper_config ++
  dquote :: lit " color=" ++ pen_color paper_config ++ lit ">" ++
  html_text ++ lit "</font>".

(** The [if is_crayon: ... else: ...] block. *)
Definition mode_stage (paper_config : PaperConfig) (is_crayon : bool)
    (html_text : pystr) : pystr :=
  if is_crayon then
    crayon_wrap paper_config (strip_tokens restricted_tokens html_text)
  else
    pen_wrap paper_config (_replace_in_order html_text pen_only_replacements).

Definition field_needle : pystr :=
  lit "<span class=" ++ dquote :: lit "paper_field" ++ dquote :: lit ">".

(** The text before the mode branch: escaped, newlines stripped, the
    common tags and [[sign]] substituted. *)
Definition pre_mode_text (raw_text : pystr) (paper_config : PaperConfig)
    (user_name signature : option pystr) (now : option datetime) : pystr :=
  let now := now_or_clock now in
  let html_text := encode_byondish_html raw_text in
  let html_text := strip_newlines html_text in
  let html_text :=
    _replace_in_order html_text (common_replacements paper_config now) in
  sign_stage paper_config user_name signature html_text.

(** [render_pencode_to_html]: the snippet and the field count (a Python
    [int], here in [Z]). *)
Definition render_pencode_to_html (raw_text : pystr)
    (paper_config : PaperConfig) (user_name signature : option pystr)
    (is_crayon : bool) (now : option datetime) : pystr * Z :=
  let html_text :=
    mode_stage paper_config is_crayon
      (pre_mode_text raw_text paper_config user_name signature now) in
  let field_count := count field_needle html_text in
  (html_text, Z.of_nat field_count).

End Clock.

(** ** The program with its exceptions

    Python enforces no annotation: a parameter annotated [str] or
    [Optional[str]] holds whatever the caller passes, and a method call
    on a value that has no such method raises.  Here the arguments of
    the renderer are values of any of the kinds its annotations name,
    every call on one of them may raise, and the functions are written
    again with those calls in the order of the source. *)

Inductive exn : Type :=
| AttributeError
| TypeError.

Inductive result (A : Type) : Type :=
| Ok (a : A)
| Raise (e : exn).

Arguments Ok {A} a.
Arguments Raise {A} e.

Definition bind {A B : Type} (r : result A) (k : A -> result B) : result B :=
  match r with
  | Ok a => k a
  | Raise e => Raise e
  end.

Notation "x <- r ;; k" := (bind r (fun x => k))
  (at level 61, r at next level, right associativity).

(** What a caller can pass: [None], a [str] or a [datetime.datetime]. *)
Inductive value : Type :=
| VNone
| VStr (s : pystr)
| VDatetime (t : datetime).

(** A string literal as a value. *)
Definition lit_value (s : string) : value := VStr (lit s).

(** An [Optional[str]] argument as a value. *)
Definition of_optional (x : option pystr) : value :=
  match x with
  | Some s => VStr s
  | None => VNone
  end.

(** [bool(v)]: [None] and the empty string are false, a [datetime] is
    always true. *)
Definition value_truthy (v : value) : bool :=
  match v with
  | VNone => false
  | VStr s => truthy s
  | VDatetime _ => true
  end.

(** [v.replace(old, new)] with two strings: a [str] has the method; a
    [datetime] has a method of that name that takes fields, not
    strings, and raises [TypeError]; [None] has no such attribute. *)
Definition call_replace (v : value) (old new : pystr) : result pystr :=
  match v with
  | VStr s => Ok (replace old new s)
  | VDatetime _ => Raise TypeError
  | VNone => Raise AttributeError
  end.

(** [v.strip()]: only a [str] has the method. *)
Definition call_strip (v : value) : result pystr :=
  match v with
  | VStr s => Ok (strip s)
  | _ => Raise AttributeError
  end.

(** [t.strftime("%H:%M")] and [t.strftime("%Y-%m-%d")] of a [datetime]. *)
Definition strftime_HM (t : datetime) : pystr :=
  pad2 (hour t) ++ lit ":" ++ pad2 (minute t).

Definition strftime_Ymd (t : datetime) : pystr :=
  decimal (year t) ++ lit "-" ++ pad2 (month t) ++ lit "-" ++ pad2 (day t).

(** [v.strftime(format)]: only a [datetime] has the method. *)
Definition call_strftime (v : value) (format : datetime -> pystr) : result pystr :=
  match v with
  | VDatetime t => Ok (format t)
  | _ => Raise AttributeError
  end.

(** [html.escape(s, quote)]: the first [replace] is called on the
    argument, the others on the string it returned. *)
Definition html_escape_exn (s : value) (quote : bool) : result pystr :=
  s <- call_replace s (lit "&") (lit "&amp;") ;;
  let s := replace (lit "<") (lit "&lt;") s in
  let s := replace (lit ">") (lit "&gt;") s in
  if quote then
    let s := replace [dquote] (lit "&quot;") s in
    let s := replace (lit "'") (lit "&#x27;") s in
    Ok s
  else Ok s.

Definition encode_byondish_html_exn (text : value) : result pystr :=
  escaped <- html_escape_exn text true ;;
  Ok (replace (lit "'") (lit "&#39;") escaped).

Section ClockExn.

Variable clock : datetime.

(** [now or datetime.datetime.now()] *)
Definition value_or_clock (now : value) : value :=
  if value_truthy now then now else VDatetime clock.

Definition station_time_text_exn (now : value) : result pystr :=
  call_strftime (value_or_clock now) strftime_HM.

Definition station_date_text_exn (now : value) : result pystr :=
  call_strftime (value_or_clock now) strftime_Ymd.

(** The condition [x and x.strip()]: [strip] is called only on a true
    [x], and the condition holds when the stripped text is not empty. *)
Definition and_strip (x : value) : result bool :=
  if value_truthy x then
    stripped <- call_strip x ;;
    Ok (truthy stripped)
  else Ok false.

Definition resolved_signature_exn (signature user_name : value) : result pystr :=
  signed <- and_strip signature ;;
  if signed then call_strip signature
  else
    named <- and_strip user_name ;;
    if named then call_strip user_name
    else Ok (lit "Anonymous").

(** The list [common_replacements], once the two station texts are
    there. *)
Definition common_replacements_exn (paper_config : PaperConfig)
    (now : value) : result (list (pystr * pystr)) :=
  time_text <- station_time_text_exn now ;;
  date_text <- station_date_text_exn now ;;
  Ok [ (lit "[center]", lit "<center>");
       (lit "[/center]", lit "</center>");
       (lit "[br]", lit "<BR>");
       (lit "[b]", lit "<B>");
       (lit "[/b]", lit "</B>");
       (lit "[i]", lit "<I>");
       (lit "[/i]", lit "</I>");
       (lit "[u]", lit "<U>");
       (lit "[/u]", lit "</U>");
       (lit "[time]", time_text);
       (lit "[date]", date_text);
       (lit "[station]", station_name paper_config);
       (lit "[large]", lit "<font size=" ++ dquote :: lit "4" ++ dquote :: lit ">");
       (lit "[/large]", lit "</font>");
       (lit "[field]", field_span);
       (lit "[h1]", lit "<H1>");
       (lit "[/h1]", lit "</H1>");
       (lit "[h2]", lit "<H2>");
       (lit "[/h2]", lit "</H2>");
       (lit "[h3]", lit "<H3>");
       (lit "[/h3]", lit "</H3>");
       (lit "[tab]", nbsp6) ].

(** The block guarded by the test that [[sign]] occurs: the signature
    is resolved only inside it. *)
Definition sign_stage_exn (paper_config : PaperConfig)
    (user_name signature : value) (html_text : pystr) : result pystr :=
  if contains (lit "[sign]") html_text then
    resolved <- resolved_signature_exn signature user_name ;;
    let signature_text := encode_byondish_html resolved in
    Ok (replace (lit "[sign]") (signature_html paper_config signature_text)
          html_text)
  else Ok html_text.

(** [render_pencode_to_html], statement by statement: what it returns,
    or the exception that ends it. *)
Definition render_pencode_to_html_exn (raw_text : value)
    (paper_config : PaperConfig) (user_name signature : value)
    (is_crayon : bool) (now : value) : result (pystr * Z) :=
  let now := value_or_clock now in
  html_text <- encode_byondish_html_exn raw_text ;;
  let html_text := strip_newlines html_text in
  replacements <- common_replacements_exn paper_config now ;;
  let html_text := _replace_in_order html_text replacements in
  html_text <- sign_stage_exn paper_config user_name signature html_text ;;
  let html_text := mode_stage paper_config is_crayon html_text in
  let field_count := count field_needle html_text in
  Ok (html_text, Z.of_nat field_count).

End ClockExn.

(** ** Vocabulary of the specification *)

(** The character reference the Escaper writes for one character. *)
Definition escape_char (c : char) : pystr :=
  if c =? 38 then lit "&amp;"
  else if c =? 60 then lit "&lt;"
  else if c =? 62 then lit "&gt;"
  else if c =? 34 then lit "&quot;"
  else if c =? 39 then lit "&#x27;"
  else [c].

(** What follows the ampersand in the five references. *)
Definition reference_bodies : list pystr :=
  [lit "amp;"; lit "lt;"; lit "gt;"; lit "quot;"; lit "#x27;"].

(** The characters that markup could be injected with, the ampersand apart. *)
Definition is_raw_markup (c : char) : bool :=
  (c =? 60) || (c =? 62) || (c =? 34) || (c =? 39).

(** Every ampersand of [s] starts one of the five references. *)
Fixpoint ampersands_start_references (s : pystr) : bool :=
  match s with
  | [] => true
  | c :: rest =>
      (if c =? 38 then existsb (fun body => starts_with body rest) reference_bodies
       else true)
      && ampersands_start_references rest
  end.

(** The newline-equivalent characters: LF, CR, U+2028 and U+2029. *)
Definition is_newline (c : char) : bool :=
  (c =? LF) || (c =? CR) || (c =? LSEP) || (c =? PSEP).

(** A string that holds none of them. *)
Definition newline_free (s : pystr) : Prop :=
  Forall (fun c => is_newline c = false) s.

Definition newline_free_opt (o : option pystr) : Prop :=
  match o with
  | Some s => newline_free s
  | None => True
  end.

Definition newline_free_config (paper_config : PaperConfig) : Prop :=
  newline_free (station_name paper_config) /\
  newline_free (default_font paper_config) /\
  newline_free (sign_font paper_config) /\
  newline_free (crayon_font paper_config) /\
  newline_free (pen_color paper_config).

(** The raw text with its newline characters taken out. *)
Definition without_newlines (s : pystr) : pystr :=
  filter (fun c => negb (is_newline c)) s.

(** A timestamp for the examples: 2024-03-07 09:05. *)
Definition example_now : datetime := mkDatetime 2024 3 7 9 5.

(** A string without the less-than sign: it opens no HTML tag. *)
Definition lt_free (s : pystr) : Prop := Forall (fun c => c <> 60) s.

(** The characters that after a less-than sign would open a list tag
    (l of li, u of ul) or let a pencode tag start there (the bracket). *)
Definition opens_list_tag (d : char) : bool :=
  (d =? 108) || (d =? 117) || (d =? 91).

(** Every less-than sign of [s] is followed by a character, and not by
    one of those. *)
Fixpoint lt_guarded (s : pystr) : bool :=
  match s with
  | [] => true
  | c :: rest =>
      (if c =? 60
       then match rest with
            | [] => false
            | d :: _ => negb (opens_list_tag d)
            end
       else true)
      && lt_guarded rest
  end.

(** A string without the opening bracket: no pencode tag starts in it. *)
Definition bracket_free (s : pystr) : Prop := Forall (fun c => c <> 91) s.

(** Signature resolution as the specification words it: the signature
    when it is not null and not blank after trimming, else the user name
    when it is not null and not blank, else the word Anonymous.  The
    text that is used is the argument as it was passed. *)
Definition spec_nonblank (x : option pystr) : option pystr :=
  match x with
  | Some s => if truthy (strip s) then Some s else None
  | None => None
  end.

Definition spec_resolved_signature (signature user_name : option pystr) : pystr :=
  match spec_nonblank signature with
  | Some s => s
  | None =>
      match spec_nonblank user_name with
      | Some u => u
      | None => lit "Anonymous"
      end
  end.

(** The trimmed text of an optional argument, empty when it is null. *)
Definition trimmed (x : option pystr) : pystr :=
  match x with
  | Some s => strip s
  | None => []
  end.

(** A character that no stage touches: not one of the five escaped
    ones, not a newline, not the opening bracket. *)
Definition is_plain (c : char) : bool :=
  negb ((c =? 38) || is_raw_markup c || is_newline c || (c =? 91)).

(** A text of such characters. *)
Definition plain_text (x : pystr) : Prop := Forall (fun c => is_plain c = true) x.

(** ** More of the program *)

(** [wrap_in_document]: the text before the snippet. *)
Definition document_head : pystr :=
  lit "<!doctype html>" ++ LF ::
  lit "<html>" ++ LF :: lit "<head>" ++ LF ::
  lit "<meta charset='utf-8'>" ++ LF ::
  lit "<style>" ++ LF ::
  lit "  body{ margin:12px; }" ++ LF ::
  lit "  .paper_field{ display:inline-block; min-width:140px; min-height:1.2em; " ++
  lit "               border-bottom:1px dotted #888; vertical-align:baseline; }" ++ LF ::
  lit "</style>" ++ LF ::
  lit "</head>" ++ LF :: lit "<body>" ++ [LF].

(** The text after it. *)
Definition document_tail : pystr :=
  LF :: lit "</body>" ++ LF :: lit "</html>" ++ [LF].

Definition wrap_in_document (snippet : pystr) : pystr :=
  document_head ++ snippet ++ document_tail.

(** [x or None] for a string [x]. *)
Definition or_none (x : pystr) : option pystr :=
  if truthy x then Some x else None.

(** The fields of [InputWindow] that the renderer is called with. *)
Record InputState := mkInputState {
  _paper_config : PaperConfig;
  _is_crayon : bool;
  _user_name : option pystr;
  _signature : option pystr
}.

(** [set_user_name] and [set_signature] on the answer [(text, ok)] of the
    input dialog: the new state, before the preview is rendered again. *)
Definition set_user_name (st : InputState) (text : pystr) (ok : bool) : InputState :=
  if ok then
    {| _paper_config := _paper_config st; _is_crayon := _is_crayon st;
       _user_name := or_none (strip text); _signature := _signature st |}
  else st.

Definition set_signature (st : InputState) (text : pystr) (ok : bool) : InputState :=
  if ok then
    {| _paper_config := _paper_config st; _is_crayon := _is_crayon st;
       _user_name := _user_name st; _signature := or_none (strip text) |}
  else st.

(** [_render_preview]: what is handed to [set_rendered_html], for the text
    of the editor and the time the call is made at. *)
Definition _render_preview (st : InputState) (raw_text : pystr)
    (clock : datetime) : pystr * Z :=
  let '(snippet, field_count) :=
    render_pencode_to_html clock raw_text (_paper_config st) (_user_name st)
      (_signature st) (_is_crayon st) (Some clock) in
  (wrap_in_document snippet, field_count).

(** [s.find(sub)]: the index of the first occurrence, or -1. *)
Fixpoint find_index (sub s : pystr) : option nat :=
  if starts_with sub s then Some O
  else match s with
       | [] => None
       | _ :: rest => option_map S (find_index sub rest)
       end.

Definition str_find (sub s : pystr) : Z :=
  match find_index sub s with
  | Some i => Z.of_nat i
  | None => (-1)%Z
  end.

(** [_insert_template]: the text handed to [insertText], and the
    position handed to [setPosition] when the marker is found.
    [position_after] is what [text_cursor.position()] returns after the
    insertion. *)
Definition _insert_template (template cursor_marker : pystr)
    (position_after : Z) : pystr * option Z :=
  let marker_index := str_find cursor_marker template in
  let template_text := replace cursor_marker [] template in
  (template_text,
   if (marker_index >=? 0)%Z then
     let end_pos := position_after in
     let new_pos :=
       (end_pos - (Z.of_nat (List.length template_text) - marker_index))%Z in
     Some new_pos
   else None).

(** [_wrap_selection]: the text handed to [insertText], and the position
    handed to [setPosition] when nothing was selected.  [selected_text]
    is [text_cursor.selectedText()], empty exactly when
    [text_cursor.hasSelection()] is false. *)
Definition _wrap_selection (opening_tag closing_tag selected_text : pystr)
    (position_after : Z) : pystr * option Z :=
  if truthy selected_text then
    let selected_text := replace [PSEP] [LF] selected_text in
    (opening_tag ++ selected_text ++ closing_tag, None)
  else
    (opening_tag ++ closing_tag,
     Some (position_after - Z.of_nat (List.length closing_tag))%Z).

(** The pairs of tags that the toolbar actions and shortcuts pass to
    [_wrap_selection]. *)
Definition wrap_actions : list (pystr * pystr) :=
  [ (lit "[b]", lit "[/b]"); (lit "[i]", lit "[/i]"); (lit "[u]", lit "[/u]");
    (lit "[center]", lit "[/center]");
    (lit "[h1]", lit "[/h1]"); (lit "[h2]", lit "[/h2]");
    (lit "[h3]", lit "[/h3]");
    (lit "[large]", lit "[/large]"); (lit "[small]", lit "[/small]") ].

(** [main]: the width of each window and the left edges of the input and
    the preview window, from the left edge and the width of the
    available area of the screen. *)
Definition window_width (available_width : Z) : Z :=
  Z.max 900 (available_width / 2).

Definition left_x (available_x available_width : Z) : Z :=
  (available_x + (available_width - 2 * window_width available_width) / 2)%Z.

Definition preview_x (available_x available_width : Z) : Z :=
  (left_x available_x available_width + window_width available_width)%Z.

(** ** Vocabulary for the further properties *)

Definition config_lt_free (paper_config : PaperConfig) : Prop :=
  lt_free (station_name paper_config) /\
  lt_free (default_font paper_config) /\
  lt_free (sign_font paper_config) /\
  lt_free (crayon_font paper_config) /\
  lt_free (pen_color paper_config).

(** The two characters after the less-than sign in the tags that the
    tables and the wrappers of the renderer write. *)
Definition tag_starts : list pystr :=
  [ lit "ce"; lit "/c"; lit "BR"; lit "B>"; lit "/B"; lit "I>"; lit "/I";
    lit "U>"; lit "/U"; lit "fo"; lit "/f"; lit "sp"; lit "/s"; lit "H1";
    lit "H2"; lit "H3"; lit "/H"; lit "i>"; lit "/i"; lit "b>"; lit "/b";
    lit "li"; lit "HR"; lit "ul"; lit "/u"; lit "ta"; lit "/t"; lit "tr";
    lit "td"; lit "im" ].

(** Every less-than sign of [s] opens one of those tags. *)
Fixpoint tags_known (s : pystr) : bool :=
  match s with
  | [] => true
  | c :: rest =>
      (if c =? 60 then existsb (fun p => starts_with p rest) tag_starts
       else true)
      && tags_known rest
  end.

(** No end of [t] is the beginning of an occurrence of [needle] that
    [t] is too short to finish: no non-empty suffix of [t] is a proper
    prefix of [needle]. *)
Fixpoint no_partial (needle t : pystr) : bool :=
  match t with
  | [] => true
  | _ :: rest =>
      negb (starts_with t needle && (List.length t <? List.length needle)%nat)
      && no_partial needle rest
  end.

(** [piece] is replaced on its own, whatever follows it. *)
Definition replaced_alone (needle repl piece : pystr) : Prop :=
  forall rest,
    replace needle repl (piece ++ rest) =
    replace needle repl piece ++ replace needle repl rest.

(** So along a whole table of replacements. *)
Fixpoint replaced_alone_in (table : list (pystr * pystr)) (piece : pystr) : Prop :=
  match table with
  | [] => True
  | (needle, repl) :: more =>
      replaced_alone needle repl piece /\
      replaced_alone_in more (replace needle repl piece)
  end.

(** A check of it that computes. *)
Fixpoint no_partial_in (table : list (pystr * pystr)) (piece : pystr) : bool :=
  match table with
  | [] => true
  | (needle, repl) :: more =>
      no_partial needle piece && no_partial_in more (replace needle repl piece)
  end.

(** The substitutions of one call in the order they are applied: the
    common ones, the signature, and those of the mode (in crayon mode
    each denylist token with the empty string). *)
Definition substitutions (clock : datetime) (paper_config : PaperConfig)
    (user_name signature : option pystr) (is_crayon : bool)
    (now : option datetime) : list (pystr * pystr) :=
  common_replacements clock paper_config (now_or_clock clock now) ++
  (lit "[sign]",
   signature_html paper_config
     (encode_byondish_html (resolved_signature signature user_name))) ::
  (if is_crayon then map (fun token => (token, [])) restricted_tokens
   else pen_only_replacements).

(** The wrapper of the mode. *)
Definition mode_wrap (paper_config : PaperConfig) (is_crayon : bool)
    (html_text : pystr) : pystr :=
  if is_crayon then crayon_wrap paper_config html_text
  else pen_wrap paper_config html_text.


(** A document cut into pieces: stretches of text and tags. *)
Inductive piece : Type :=
| Text (x : pystr)
| Tag (t : pystr).

Definition source_of (p : piece) : pystr :=
  match p with
  | Text x => x
  | Tag t => t
  end.





Fixpoint pystr_eqb (a b : pystr) : bool :=
  match a, b with
  | [], [] => true
  | c :: a', d :: b' => (c =? d) && pystr_eqb a' b'
  | _, _ => false
  end.

(** What a table has for a tag: its first entry for it, else the tag
    itself. *)
Definition tag_html (table : list (pystr * pystr)) (t : pystr) : pystr :=
  match find (fun nr => pystr_eqb (fst nr) t) table with
  | Some nr => snd nr
  | None => t
  end.

(** The HTML of a piece: text escaped, without its newline characters;
    a tag looked up. *)
Definition html_of (table : list (pystr * pystr)) (p : piece) : pystr :=
  match p with
  | Text x => encode_byondish_html (without_newlines x)
  | Tag t => tag_html table t
  end.

(** [piece] is counted on its own, whatever follows it. *)
Definition counted_alone (needle piece : pystr) : Prop :=
  forall rest,
    count needle (piece ++ rest) =
    (count needle piece + count needle rest)%nat.



(** A piece goes through a table on its own and comes out as [html_of]
    says. *)
Definition piece_translated (table : list (pystr * pystr)) (p : piece) : Prop :=
  replaced_alone_in table
    (encode_byondish_html (without_newlines (source_of p))) /\
  _replace_in_order (encode_byondish_html (without_newlines (source_of p)))
    table = html_of table p.

(** ** Facts about Python's string methods *)

Section StringFacts.

Lemma starts_with_app (p r : pystr) : starts_with p (p ++ r) = true.
Proof.
  induction p as [|a p IH]; simpl; [reflexivity|].
  now rewrite N.eqb_refl, IH.
Qed.

Lemma starts_with_split (p s : pystr) :
  starts_with p s = true -> s = p ++ skipn (List.length p) s.
Proof.
  revert s; induction p as [|a p IH]; intros [|b s]; simpl; try easy.
  intros H; apply andb_prop in H as [Hab Hps].
  apply N.eqb_eq in Hab; subst b.
  f_equal; now apply IH.
Qed.

Lemma starts_with_head (a b : char) (p s : pystr) :
  a <> b -> starts_with (a :: p) (b :: s) = false.
Proof.
  intros Hab; simpl.
  now apply N.eqb_neq in Hab as ->.
Qed.

(** Jumping over [k] characters first is replacing in what is left. *)
Lemma replace_from_skip (old new s : pystr) (k : nat) :
  replace_from old new s k = replace_from old new (skipn k s) 0.
Proof.
  revert k; induction s as [|c s IH]; intros [|k]; simpl; try reflexivity.
  apply IH.
Qed.

Lemma replace_nil (old new : pystr) : old <> [] -> replace old new [] = [].
Proof. destruct old; [easy | reflexivity]. Qed.

(** At an occurrence of [old], [replace] writes [new] and goes on after it. *)
Lemma replace_hit (old new r : pystr) :
  old <> [] -> replace old new (old ++ r) = new ++ replace old new r.
Proof.
  destruct old as [|a old]; [easy | intros _].
  unfold replace; cbn [app replace_from].
  change (a :: old ++ r) with ((a :: old) ++ r).
  rewrite starts_with_app, replace_from_skip.
  cbn [List.length Nat.pred].
  replace (skipn (List.length old) (old ++ r)) with r; [reflexivity|].
  rewrite skipn_app, Nat.sub_diag, skipn_all; reflexivity.
Qed.

(** Elsewhere it copies a character. *)
Lemma replace_miss (old new : pystr) (c : char) (r : pystr) :
  old <> [] -> starts_with old (c :: r) = false ->
  replace old new (c :: r) = c :: replace old new r.
Proof.
  destruct old as [|a old]; [easy | intros _ H].
  unfold replace; cbn [replace_from]; now rewrite H.
Qed.

(** The two cases of [replace] at a character. *)
Lemma replace_cases (old new : pystr) (c : char) (r : pystr) :
  old <> [] ->
  (exists r', c :: r = old ++ r' /\
              replace old new (c :: r) = new ++ replace old new r') \/
  (starts_with old (c :: r) = false /\
   replace old new (c :: r) = c :: replace old new r).
Proof.
  intros Hold.
  destruct (starts_with old (c :: r)) eqn:E.
  - left. apply starts_with_split in E.
    exists (skipn (List.length old) (c :: r)); split; [exact E|].
    rewrite E at 1. now apply replace_hit.
  - right. split; [reflexivity | now apply replace_miss].
Qed.

(** Induction on a string along the scan of [replace]. *)
Lemma replace_scan_ind (old : pystr) (P : pystr -> Prop) :
  old <> [] ->
  P [] ->
  (forall r, P r -> P (old ++ r)) ->
  (forall c r, starts_with old (c :: r) = false -> P r -> P (c :: r)) ->
  forall s, P s.
Proof.
  intros Hold Hnil Hhit Hmiss s.
  remember (List.length s) as n eqn:Hn.
  revert s Hn; induction n as [n IH] using lt_wf_ind; intros s Hn.
  destruct s as [|c r]; [exact Hnil|].
  destruct (starts_with old (c :: r)) eqn:E.
  - apply starts_with_split in E. rewrite E. apply Hhit.
    apply (IH (List.length (skipn (List.length old) (c :: r)))); [|reflexivity].
    subst n. rewrite length_skipn.
    destruct old; [easy | simpl; lia].
  - apply Hmiss; [exact E|].
    apply (IH (List.length r)); [subst n; simpl; lia | reflexivity].
Qed.

(** Replacing a single character is a map over the characters. *)
Lemma replace_char (a : char) (new s : pystr) :
  replace [a] new s = flat_map (fun c => if c =? a then new else [c]) s.
Proof.
  unfold replace.
  induction s as [|c s IH]; [reflexivity|].
  cbn [replace_from starts_with flat_map List.length Nat.pred].
  rewrite (N.eqb_sym a c), andb_true_r.
  destruct (c =? a); cbn [app]; now rewrite IH.
Qed.

Lemma flat_map_flat_map (f g : char -> pystr) (s : pystr) :
  flat_map g (flat_map f s) = flat_map (fun c => flat_map g (f c)) s.
Proof.
  induction s as [|c s IH]; [reflexivity|].
  simpl. now rewrite flat_map_app, IH.
Qed.

(** A string the needle does not occur in is left as it is. *)
Lemma replace_absent (old new s : pystr) :
  old <> [] -> contains old s = false -> replace old new s = s.
Proof.
  intros Hold.
  induction s as [|c s IH]; intros H; [now apply replace_nil|].
  cbn [contains] in H. apply orb_false_elim in H as [H1 H2].
  rewrite replace_miss by assumption.
  f_equal. now apply IH.
Qed.

(** [replace] keeps a property of characters that [new] has. *)
Lemma replace_Forall (P : char -> Prop) (old new s : pystr) :
  old <> [] -> Forall P new -> Forall P s -> Forall P (replace old new s).
Proof.
  intros Hold Hnew. pattern s.
  apply (replace_scan_ind old); [exact Hold | | |].
  - now rewrite replace_nil.
  - intros r IH H. rewrite replace_hit by exact Hold.
    apply Forall_app in H as [_ H].
    apply Forall_app; split; [exact Hnew | now apply IH].
  - intros c r E IH H. rewrite replace_miss by assumption.
    inversion H; subst. constructor; [assumption | now apply IH].
Qed.

Lemma count_from_skip (sub s : pystr) (k : nat) :
  count_from sub s k = count_from sub (skipn k s) 0.
Proof.
  revert k; induction s as [|c s IH]; intros [|k]; simpl; try reflexivity.
  apply IH.
Qed.

Lemma count_hit (sub r : pystr) :
  sub <> [] -> count sub (sub ++ r) = S (count sub r).
Proof.
  destruct sub as [|a sub]; [easy | intros _].
  unfold count; cbn [app count_from].
  change (a :: sub ++ r) with ((a :: sub) ++ r).
  rewrite starts_with_app, count_from_skip.
  cbn [List.length Nat.pred].
  replace (skipn (List.length sub) (sub ++ r)) with r; [reflexivity|].
  rewrite skipn_app, Nat.sub_diag, skipn_all; reflexivity.
Qed.

Lemma count_miss (sub : pystr) (c : char) (r : pystr) :
  sub <> [] -> starts_with sub (c :: r) = false ->
  count sub (c :: r) = count sub r.
Proof.
  destruct sub as [|a sub]; [easy | intros _ H].
  unfold count; cbn [count_from]; now rewrite H.
Qed.

(** No occurrence starts in a stretch without the needle's first
    character. *)
Lemma count_app_nohead (h : char) (t a b : pystr) :
  Forall (fun c => c <> h) a ->
  count (h :: t) (a ++ b) = count (h :: t) b.
Proof.
  induction 1 as [|c a Hc _ IH]; [reflexivity|].
  cbn [app]. rewrite count_miss; [exact IH | discriminate |].
  apply starts_with_head. congruence.
Qed.

Lemma replace_app_nohead (h : char) (t new a b : pystr) :
  Forall (fun c => c <> h) a ->
  replace (h :: t) new (a ++ b) = a ++ replace (h :: t) new b.
Proof.
  induction 1 as [|c a Hc _ IH]; [reflexivity|].
  cbn [app]. rewrite replace_miss; [now rewrite IH | discriminate |].
  apply starts_with_head. congruence.
Qed.

End StringFacts.

(** ** The Escaper *)

Section Escaper.

Lemma escape_char_plain (c : char) :
  c <> 38 -> is_raw_markup c = false -> escape_char c = [c].
Proof.
  unfold is_raw_markup, escape_char. intros H38 H.
  apply N.eqb_neq in H38.
  repeat (apply orb_false_elim in H as [H ?]).
  now rewrite H38, H, H0, H1, H2.
Qed.

(** The five passes of [html.escape] rewrite each character once. *)
Lemma html_escape_flat_map (s : pystr) :
  html_escape s true = flat_map escape_char s.
Proof.
  unfold html_escape.
  change (lit "&") with [38]; change (lit "<") with [60];
    change (lit ">") with [62]; change (lit "'") with [39]; unfold dquote.
  rewrite !replace_char, !flat_map_flat_map.
  apply flat_map_ext; intros c. unfold escape_char.
  destruct (N.eqb_spec c 38) as [->|H38]; [reflexivity|].
  destruct (N.eqb_spec c 60) as [->|H60]; [reflexivity|].
  destruct (N.eqb_spec c 62) as [->|H62]; [reflexivity|].
  destruct (N.eqb_spec c 34) as [->|H34]; [reflexivity|].
  destruct (N.eqb_spec c 39) as [->|H39]; [reflexivity|].
  apply N.eqb_neq in H60, H62, H34, H39.
  cbn [flat_map app]. rewrite H60. cbn [flat_map app]. rewrite H62.
  cbn [flat_map app]. rewrite H34. cbn [flat_map app]. rewrite H39.
  reflexivity.
Qed.

Lemma escape_char_no_raw_markup (c : char) :
  Forall (fun d => is_raw_markup d = false) (escape_char c).
Proof.
  unfold escape_char.
  destruct (N.eqb_spec c 38); [repeat constructor|].
  destruct (N.eqb_spec c 60); [repeat constructor|].
  destruct (N.eqb_spec c 62); [repeat constructor|].
  destruct (N.eqb_spec c 34); [repeat constructor|].
  destruct (N.eqb_spec c 39); [repeat constructor|].
  constructor; [|constructor].
  unfold is_raw_markup.
  repeat match goal with H : c <> _ |- _ => apply N.eqb_neq in H; rewrite H; clear H end.
  reflexivity.
Qed.

Lemma flat_map_escape_no_raw_markup (s : pystr) :
  Forall (fun d => is_raw_markup d = false) (flat_map escape_char s).
Proof.
  apply Forall_flat_map, Forall_forall. intros c _.
  apply escape_char_no_raw_markup.
Qed.

Lemma no_raw_markup_no_apostrophe (s : pystr) :
  Forall (fun d => is_raw_markup d = false) s -> contains [39] s = false.
Proof.
  induction 1 as [|c s Hc _ IH]; [reflexivity|].
  cbn [contains starts_with]. rewrite IH, andb_true_r, orb_false_r.
  unfold is_raw_markup in Hc.
  repeat (apply orb_false_elim in Hc as [Hc ?]).
  now rewrite N.eqb_sym.
Qed.

(** [encode_byondish_html] rewrites each character once; its own
    [replace] of the apostrophe finds none left. *)
Lemma encode_byondish_html_flat_map (s : pystr) :
  encode_byondish_html s = flat_map escape_char s.
Proof.
  unfold encode_byondish_html. rewrite html_escape_flat_map.
  apply replace_absent; [discriminate|].
  apply no_raw_markup_no_apostrophe, flat_map_escape_no_raw_markup.
Qed.

Lemma ampersands_escape_char (c : char) (t : pystr) :
  ampersands_start_references (escape_char c ++ t) =
  ampersands_start_references t.
Proof.
  unfold escape_char.
  destruct (N.eqb_spec c 38); [reflexivity|].
  destruct (N.eqb_spec c 60); [reflexivity|].
  destruct (N.eqb_spec c 62); [reflexivity|].
  destruct (N.eqb_spec c 34); [reflexivity|].
  destruct (N.eqb_spec c 39); [reflexivity|].
  cbn [app ampersands_start_references].
  now apply N.eqb_neq in n as ->.
Qed.

Lemma ampersands_flat_map_escape (s : pystr) :
  ampersands_start_references (flat_map escape_char s) = true.
Proof.
  induction s as [|c s IH]; [reflexivity|].
  cbn [flat_map]. now rewrite ampersands_escape_char.
Qed.

Lemma ampersands_start_references_at (s pre post : pystr) :
  ampersands_start_references s = true ->
  s = pre ++ 38 :: post ->
  exists body, In body reference_bodies /\ starts_with body post = true.
Proof.
  revert s; induction pre as [|a pre IH]; intros s Hs ->.
  - cbn [app ampersands_start_references] in Hs.
    rewrite N.eqb_refl in Hs. apply andb_prop in Hs as [Hs _].
    apply existsb_exists in Hs. exact Hs.
  - cbn [app ampersands_start_references] in Hs.
    apply andb_prop in Hs as [_ Hs].
    now apply (IH (pre ++ 38 :: post)).
Qed.

(** C2: the output of [encode_byondish_html] holds none of the
    characters less-than, greater-than, double quote and apostrophe;
    each character of the input is rewritten on its own, the five
    special ones (apostrophe included) to a character reference and
    every other one to itself; and an ampersand of the output is
    always followed by the body of one of the five references. *)
Theorem encode_byondish_html_escapes (s : pystr) :
  Forall (fun c => c <> 60 /\ c <> 62 /\ c <> 34 /\ c <> 39)
         (encode_byondish_html s)
  /\ encode_byondish_html s = flat_map escape_char s
  /\ escape_char 38 = lit "&amp;"
  /\ escape_char 60 = lit "&lt;"
  /\ escape_char 62 = lit "&gt;"
  /\ escape_char 34 = 38 :: lit "quot;"
  /\ escape_char 39 = lit "&#x27;"
  /\ (forall c, c <> 38 -> c <> 60 -> c <> 62 -> c <> 34 -> c <> 39 ->
                escape_char c = [c])
  /\ (forall pre post, encode_byondish_html s = pre ++ 38 :: post ->
        exists body, In body reference_bodies /\ starts_with body post = true).
Proof.
  rewrite encode_byondish_html_flat_map.
  split; [|repeat split].
  - eapply Forall_impl; [|apply flat_map_escape_no_raw_markup].
    intros c Hc. unfold is_raw_markup in Hc.
    repeat (apply orb_false_elim in Hc as [Hc ?]).
    repeat split; now apply N.eqb_neq.
  - intros c H38 H60 H62 H34 H39. apply escape_char_plain; [exact H38|].
    unfold is_raw_markup.
    apply N.eqb_neq in H60, H62, H34, H39. now rewrite H60, H62, H34, H39.
  - intros pre post. apply ampersands_start_references_at.
    apply ampersands_flat_map_escape.
Qed.

End Escaper.

(** ** Newline stripping *)

Section Newlines.

Lemma replace_char_nil (a : char) (s : pystr) :
  replace [a] [] s = filter (fun c => negb (c =? a)) s.
Proof.
  rewrite replace_char.
  induction s as [|c s IH]; [reflexivity|].
  cbn [flat_map filter]. rewrite IH.
  now destruct (c =? a).
Qed.

(** The five [replace] calls delete exactly the newline characters. *)
Lemma strip_newlines_filter (s : pystr) :
  strip_newlines s = filter (fun c => negb (is_newline c)) s.
Proof.
  unfold strip_newlines. rewrite !replace_char_nil.
  unfold is_newline, LF, CR, LSEP, PSEP.
  revert s. apply (replace_scan_ind [13; 10]);
    [discriminate | reflexivity | intros r IH | intros c r E IH].
  - rewrite replace_hit by discriminate.
    cbn [app filter N.eqb Pos.eqb orb negb]. exact IH.
  - rewrite replace_miss by (discriminate || assumption).
    destruct (c =? 10) eqn:E10; destruct (c =? 13) eqn:E13;
      destruct (c =? 8232) eqn:E1; destruct (c =? 8233) eqn:E2;
      repeat (cbn [filter negb orb]; rewrite ?E10, ?E13, ?E1, ?E2);
      (exact IH || now rewrite IH).
Qed.

Lemma strip_newlines_newline_free (s : pystr) :
  newline_free (strip_newlines s).
Proof.
  rewrite strip_newlines_filter.
  apply Forall_forall. intros c Hc.
  apply filter_In in Hc as [_ Hc].
  now apply negb_true_iff in Hc.
Qed.

Lemma digit_range (n : N) : 48 <= digit n <= 57.
Proof.
  unfold digit.
  assert (n mod 10 < 10) as H by (apply N.mod_lt; discriminate).
  revert H. generalize (n mod 10). intros m Hm. lia.
Qed.

Lemma digit_not_newline (n : N) : is_newline (digit n) = false.
Proof.
  pose proof (digit_range n) as H.
  unfold is_newline, LF, CR, LSEP, PSEP.
  repeat (apply orb_false_intro); apply N.eqb_neq; lia.
Qed.

Lemma newline_free_app (a b : pystr) :
  newline_free a -> newline_free b -> newline_free (a ++ b).
Proof. intros Ha Hb. apply Forall_app. now split. Qed.

Lemma newline_free_cons (c : char) (s : pystr) :
  is_newline c = false -> newline_free s -> newline_free (c :: s).
Proof. intros Hc Hs. now constructor. Qed.

Lemma pad2_newline_free (n : N) : newline_free (pad2 n).
Proof. repeat constructor; apply digit_not_newline. Qed.

(** The digits of a number do not depend on the accumulator, and the
    fuel of [decimal] is enough: the decimal text of a number of two
    digits or more is the text of its tenth followed by its last
    digit. *)
Lemma decimal_from_acc (fuel : nat) (n : N) (acc : pystr) :
  decimal_from fuel n acc = decimal_from fuel n [] ++ acc.
Proof.
  revert n acc. induction fuel as [|fuel IH]; intros n acc; [reflexivity|].
  cbn [decimal_from]. destruct (n <? 10); [reflexivity|].
  rewrite (IH (n / 10) (digit n :: acc)), (IH (n / 10) [digit n]).
  now rewrite <- app_assoc.
Qed.

Lemma size_nat_monotone (a b : N) :
  a <= b -> (N.size_nat a <= N.size_nat b)%nat.
Proof.
  destruct a as [|p]; [cbn; lia|].
  destruct b as [|q]; [lia|]. intros H. cbn [N.size_nat].
  destruct (Pos.eq_dec p q) as [->|Hne]; [lia|].
  apply Pos.size_nat_monotone. lia.
Qed.

Lemma size_nat_tenth (n : N) :
  10 <= n -> (N.size_nat (n / 10) < N.size_nat n)%nat.
Proof.
  intros H. destruct n as [|p]; [lia|].
  assert (N.pos p / 10 <= N.div2 (N.pos p)) as Hle.
  { rewrite N.div2_div.
    assert (N.pos p / 10 * 10 <= N.pos p)
      by (rewrite N.mul_comm; apply N.Div0.mul_div_le).
    assert (N.pos p < 2 * (N.pos p / 2) + 2).
    { pose proof (N.mod_lt (N.pos p) 2 ltac:(lia)).
      rewrite (N.div_mod (N.pos p) 2) at 1 by lia. lia. }
    lia. }
  apply size_nat_monotone in Hle.
  destruct p as [q|q|]; cbn [N.div2 N.size_nat Pos.size_nat] in *; lia.
Qed.

Lemma decimal_from_fuel (fuel1 fuel2 : nat) (n : N) :
  (N.size_nat n < fuel1)%nat -> (N.size_nat n < fuel2)%nat ->
  decimal_from fuel1 n [] = decimal_from fuel2 n [].
Proof.
  revert fuel2 n. induction fuel1 as [|fuel1 IH]; intros fuel2 n H1 H2; [lia|].
  destruct fuel2 as [|fuel2]; [lia|].
  cbn [decimal_from]. destruct (N.ltb_spec n 10) as [Hn|Hn]; [reflexivity|].
  pose proof (size_nat_tenth n Hn).
  rewrite (decimal_from_acc fuel1), (decimal_from_acc fuel2).
  f_equal. apply IH; lia.
Qed.

Lemma decimal_unfold (n : N) :
  decimal n = if n <? 10 then [digit n] else decimal (n / 10) ++ [digit n].
Proof.
  unfold decimal at 1. cbn [decimal_from].
  destruct (N.ltb_spec n 10) as [Hn|Hn]; [reflexivity|].
  pose proof (size_nat_tenth n Hn).
  rewrite decimal_from_acc. f_equal.
  apply decimal_from_fuel; lia.
Qed.

(** The year is printed as it is, the other fields in two digits. *)
Remark station_date_text_examples :
  station_date_text example_now (Some (mkDatetime 2024 3 7 9 5)) =
    lit "2024-03-07"
  /\ station_date_text example_now (Some (mkDatetime 999 1 2 3 4)) =
     lit "999-01-02"
  /\ station_date_text example_now (Some (mkDatetime 9999 12 31 23 59)) =
     lit "9999-12-31"
  /\ station_time_text example_now (Some (mkDatetime 999 1 2 3 4)) =
     lit "03:04".
Proof. repeat split; vm_compute; reflexivity. Qed.

(** What holds of every digit holds of the decimal text. *)
Lemma decimal_Forall (P : char -> Prop) (n : N) :
  (forall m, P (digit m)) -> Forall P (decimal n).
Proof.
  intros Hd. unfold decimal.
  assert (forall fuel m acc, Forall P acc -> Forall P (decimal_from fuel m acc))
    as H.
  { induction fuel as [|fuel IH]; intros m acc Hacc; [exact Hacc|].
    cbn [decimal_from]. destruct (m <? 10).
    - now constructor.
    - apply IH. now constructor. }
  apply H. constructor.
Qed.

Lemma decimal_newline_free (n : N) : newline_free (decimal n).
Proof. apply decimal_Forall, digit_not_newline. Qed.

Lemma lstrip_newline_free (s : pystr) :
  newline_free s -> newline_free (lstrip s).
Proof.
  induction 1 as [|c s Hc Hs IH]; [constructor|].
  cbn [lstrip]. destruct (isspace c); [exact IH | now constructor].
Qed.

Lemma strip_newline_free (s : pystr) :
  newline_free s -> newline_free (strip s).
Proof.
  intros H. unfold strip, rstrip, newline_free.
  apply Forall_rev, lstrip_newline_free, Forall_rev, lstrip_newline_free, H.
Qed.

Lemma escape_char_newline_free (c : char) :
  is_newline c = false -> newline_free (escape_char c).
Proof.
  intros Hc. unfold escape_char.
  repeat match goal with
         | |- context [if ?b then _ else _] => destruct b
         end; repeat constructor; exact Hc.
Qed.

Lemma encode_newline_free (s : pystr) :
  newline_free s -> newline_free (encode_byondish_html s).
Proof.
  intros H. rewrite encode_byondish_html_flat_map.
  apply Forall_flat_map. eapply Forall_impl; [|exact H].
  apply escape_char_newline_free.
Qed.

Lemma nonblank_newline_free (x : option pystr) (t : pystr) :
  newline_free_opt x -> nonblank x = Some t -> newline_free t.
Proof.
  destruct x as [s|]; [|discriminate]. cbn [newline_free_opt nonblank].
  intros H. destruct (truthy s && truthy (strip s)); [|discriminate].
  intros [= <-]. now apply strip_newline_free.
Qed.

Lemma resolved_signature_newline_free (signature user_name : option pystr) :
  newline_free_opt signature -> newline_free_opt user_name ->
  newline_free (resolved_signature signature user_name).
Proof.
  intros Hs Hu. unfold resolved_signature.
  destruct (nonblank signature) eqn:Es;
    [now apply (nonblank_newline_free signature)|].
  destruct (nonblank user_name) eqn:Eu;
    [now apply (nonblank_newline_free user_name)|].
  repeat constructor.
Qed.

Lemma replace_in_order_newline_free (table : list (pystr * pystr)) :
  Forall (fun nr => fst nr <> [] /\ newline_free (snd nr)) table ->
  forall s, newline_free s -> newline_free (_replace_in_order s table).
Proof.
  induction 1 as [|[needle repl] table [Hn Hr] _ IH]; intros s Hs;
    [exact Hs|].
  cbn [_replace_in_order]. apply IH.
  now apply replace_Forall.
Qed.

Lemma strip_tokens_newline_free (tokens : list pystr) :
  Forall (fun t => t <> []) tokens ->
  forall s, newline_free s -> newline_free (strip_tokens tokens s).
Proof.
  induction 1 as [|token tokens Ht _ IH]; intros s Hs; [exact Hs|].
  cbn [strip_tokens]. apply IH.
  apply replace_Forall; [exact Ht | constructor | exact Hs].
Qed.

Lemma newline_free_bool (s : pystr) :
  forallb (fun c => negb (is_newline c)) s = true -> newline_free s.
Proof.
  intros H. apply Forall_forall. intros c Hc.
  rewrite forallb_forall in H. now apply negb_true_iff, H.
Qed.

Lemma station_time_text_newline_free (clock : datetime) (now : option datetime) :
  newline_free (station_time_text clock now).
Proof.
  unfold station_time_text.
  repeat apply newline_free_app;
    (apply pad2_newline_free || (apply newline_free_bool; reflexivity)).
Qed.

Lemma station_date_text_newline_free (clock : datetime) (now : option datetime) :
  newline_free (station_date_text clock now).
Proof.
  unfold station_date_text.
  repeat apply newline_free_app;
    (apply pad2_newline_free || apply decimal_newline_free ||
     (apply newline_free_bool; reflexivity)).
Qed.

Ltac table_entry :=
  split; [discriminate|];
  first [ apply newline_free_bool; reflexivity
        | apply station_time_text_newline_free
        | apply station_date_text_newline_free
        | assumption ].

Lemma common_replacements_newline_free (clock : datetime)
    (paper_config : PaperConfig) (now : datetime) :
  newline_free (station_name paper_config) ->
  Forall (fun nr => fst nr <> [] /\ newline_free (snd nr))
         (common_replacements clock paper_config now).
Proof.
  intros H. unfold common_replacements.
  repeat (apply Forall_cons; [table_entry|]). apply Forall_nil.
Qed.

Lemma pen_only_replacements_newline_free :
  Forall (fun nr => fst nr <> [] /\ newline_free (snd nr))
         pen_only_replacements.
Proof.
  unfold pen_only_replacements.
  repeat (apply Forall_cons; [table_entry|]). apply Forall_nil.
Qed.

Lemma restricted_tokens_nonempty : Forall (fun t => t <> []) restricted_tokens.
Proof. repeat (apply Forall_cons; [discriminate|]). apply Forall_nil. Qed.

Lemma sign_stage_newline_free (paper_config : PaperConfig)
    (user_name signature : option pystr) (s : pystr) :
  newline_free (sign_font paper_config) ->
  newline_free (resolved_signature signature user_name) ->
  newline_free s ->
  newline_free (sign_stage paper_config user_name signature s).
Proof.
  intros Hf Hsig Hs. unfold sign_stage.
  destruct (contains (lit "[sign]") s); [|exact Hs].
  apply replace_Forall; [discriminate | | exact Hs].
  unfold signature_html.
  apply newline_free_app; [apply newline_free_bool; reflexivity|].
  apply newline_free_cons; [reflexivity|].
  apply newline_free_app; [exact Hf|].
  apply newline_free_cons; [reflexivity|].
  apply newline_free_app; [apply newline_free_bool; reflexivity|].
  apply newline_free_app; [|apply newline_free_bool; reflexivity].
  now apply encode_newline_free.
Qed.

Lemma mode_stage_newline_free (paper_config : PaperConfig)
    (is_crayon : bool) (s : pystr) :
  newline_free_config paper_config ->
  newline_free s ->
  newline_free (mode_stage paper_config is_crayon s).
Proof.
  intros (_ & Hd & _ & Hc & Hp) Hs. unfold mode_stage.
  destruct is_crayon.
  - unfold crayon_wrap.
    apply newline_free_app; [apply newline_free_bool; reflexivity|].
    apply newline_free_cons; [reflexivity|].
    apply newline_free_app; [exact Hc|].
    apply newline_free_cons; [reflexivity|].
    apply newline_free_app; [apply newline_free_bool; reflexivity|].
    apply newline_free_app; [exact Hp|].
    apply newline_free_app; [apply newline_free_bool; reflexivity|].
    apply newline_free_app; [apply newline_free_bool; reflexivity|].
    apply newline_free_app; [|apply newline_free_bool; reflexivity].
    apply strip_tokens_newline_free; [apply restricted_tokens_nonempty | exact Hs].
  - unfold pen_wrap.
    apply newline_free_app; [apply newline_free_bool; reflexivity|].
    apply newline_free_cons; [reflexivity|].
    apply newline_free_app; [exact Hd|].
    apply newline_free_cons; [reflexivity|].
    apply newline_free_app; [apply newline_free_bool; reflexivity|].
    apply newline_free_app; [exact Hp|].
    apply newline_free_app; [apply newline_free_bool; reflexivity|].
    apply newline_free_app; [|apply newline_free_bool; reflexivity].
    apply replace_in_order_newline_free;
      [apply pen_only_replacements_newline_free | exact Hs].
Qed.

Lemma escape_char_newline (c : char) :
  is_newline c = true -> escape_char c = [c].
Proof.
  unfold is_newline, LF, CR, LSEP, PSEP. intros H.
  repeat (apply orb_prop in H as [H|H]);
    apply N.eqb_eq in H; subst c; reflexivity.
Qed.

Lemma filter_newline_free (s : pystr) :
  newline_free s -> filter (fun c => negb (is_newline c)) s = s.
Proof.
  induction 1 as [|c s Hc _ IH]; [reflexivity|].
  cbn [filter]. now rewrite Hc, IH.
Qed.

(** Escaping and deleting the newline characters commute. *)
Lemma filter_flat_map_escape (s : pystr) :
  filter (fun c => negb (is_newline c)) (flat_map escape_char s) =
  flat_map escape_char (filter (fun c => negb (is_newline c)) s).
Proof.
  induction s as [|c s IH]; [reflexivity|].
  cbn [flat_map filter]. rewrite filter_app, IH.
  destruct (is_newline c) eqn:E; cbn [negb].
  - rewrite (escape_char_newline c E). cbn [filter]. now rewrite E.
  - cbn [flat_map].
    now rewrite (filter_newline_free _ (escape_char_newline_free c E)).
Qed.

Lemma strip_newlines_encode (raw_text : pystr) :
  strip_newlines (encode_byondish_html raw_text) =
  encode_byondish_html (filter (fun c => negb (is_newline c)) raw_text).
Proof.
  now rewrite strip_newlines_filter, !encode_byondish_html_flat_map,
    filter_flat_map_escape.
Qed.

Lemma filter_newline_idempotent (s : pystr) :
  filter (fun c => negb (is_newline c))
         (filter (fun c => negb (is_newline c)) s) =
  filter (fun c => negb (is_newline c)) s.
Proof.
  apply filter_newline_free, Forall_forall. intros c Hc.
  apply filter_In in Hc as [_ Hc]. now apply negb_true_iff.
Qed.

End Newlines.

(** ** The renderer and newlines *)

Section RenderNewlines.

Variable clock : datetime.

Lemma pre_mode_text_newline_free (raw_text : pystr)
    (paper_config : PaperConfig) (user_name signature : option pystr)
    (now : option datetime) :
  newline_free_config paper_config ->
  newline_free (resolved_signature signature user_name) ->
  newline_free (pre_mode_text clock raw_text paper_config user_name signature now).
Proof.
  intros (Hst & _ & Hsf & _) Hs. unfold pre_mode_text.
  apply sign_stage_newline_free; try assumption.
  apply replace_in_order_newline_free.
  - now apply common_replacements_newline_free.
  - apply strip_newlines_newline_free.
Qed.

Lemma pre_mode_text_without_newlines (raw_text : pystr)
    (paper_config : PaperConfig) (user_name signature : option pystr)
    (now : option datetime) :
  pre_mode_text clock raw_text paper_config user_name signature now =
  pre_mode_text clock (without_newlines raw_text) paper_config
                user_name signature now.
Proof.
  unfold pre_mode_text, without_newlines.
  now rewrite !strip_newlines_encode, filter_newline_idempotent.
Qed.

(** C3, as the code has it.  For every call: the five [replace] calls
    delete the newline characters of the raw text and put nothing in
    their place (the stripped text is the escaped raw text without
    them), and rendering a text is rendering it without its newline
    characters.  And the fragment holds no newline character when the
    strings of the configuration and the resolved signature text hold
    none. *)
Theorem render_strips_newlines (raw_text : pystr)
    (paper_config : PaperConfig) (user_name signature : option pystr)
    (is_crayon : bool) (now : option datetime) :
  strip_newlines (encode_byondish_html raw_text) =
    encode_byondish_html (without_newlines raw_text)
  /\ render_pencode_to_html clock raw_text paper_config user_name
       signature is_crayon now =
     render_pencode_to_html clock (without_newlines raw_text) paper_config
       user_name signature is_crayon now
  /\ (newline_free_config paper_config ->
      newline_free (resolved_signature signature user_name) ->
      newline_free
        (fst (render_pencode_to_html clock raw_text paper_config user_name
                signature is_crayon now))).
Proof.
  split; [apply strip_newlines_encode | split].
  - unfold render_pencode_to_html.
    now rewrite <- pre_mode_text_without_newlines.
  - intros Hc Hs. cbn [render_pencode_to_html fst].
    apply mode_stage_newline_free; [exact Hc|].
    now apply pre_mode_text_newline_free.
Qed.

End RenderNewlines.

Lemma newline_free_forallb (s : pystr) :
  newline_free s -> forallb (fun c => negb (is_newline c)) s = true.
Proof.
  intros H. apply forallb_forall. intros c Hc.
  apply negb_true_iff. revert c Hc. now apply Forall_forall.
Qed.

Lemma default_config_newline_free : newline_free_config default_config.
Proof. repeat split; apply newline_free_bool; reflexivity. Qed.

(** C3 as stated fails: a newline inside the signature reaches the
    fragment, whatever the raw text holds. *)
Lemma newline_in_signature_survives :
  ~ newline_free
      (fst (render_pencode_to_html example_now (LF :: lit "[sign]")
              default_config None (Some (lit "A" ++ LF :: lit "B"))
              false (Some example_now))).
Proof.
  intros H. apply newline_free_forallb in H.
  vm_compute in H. discriminate.
Qed.

Lemma render_strips_newlines_witness :
  newline_free
    (fst (render_pencode_to_html example_now
            (lit "a" ++ CR :: LF :: lit "b" ++ LSEP :: lit "[sign]")
            default_config None (Some (LF :: lit "Bob" ++ [LF])) false None)).
Proof.
  apply (render_strips_newlines example_now
           (lit "a" ++ CR :: LF :: lit "b" ++ LSEP :: lit "[sign]")
           default_config None (Some (LF :: lit "Bob" ++ [LF])) false None).
  - apply default_config_newline_free.
  - apply newline_free_bool; reflexivity.
Defined.

(** ** Determinism and totality *)

Section Purity.

(** With an explicit [now] the helpers never read the clock. *)
Lemma now_or_clock_explicit (clock : datetime) (now : datetime) :
  now_or_clock clock (Some now) = now.
Proof. reflexivity. Qed.

Lemma common_replacements_clock (clock1 clock2 : datetime)
    (paper_config : PaperConfig) (now : datetime) :
  common_replacements clock1 paper_config now =
  common_replacements clock2 paper_config now.
Proof.
  unfold common_replacements, station_time_text, station_date_text.
  now rewrite !now_or_clock_explicit.
Qed.

Lemma pre_mode_text_clock (clock1 clock2 : datetime) (raw_text : pystr)
    (paper_config : PaperConfig) (user_name signature : option pystr)
    (now : datetime) :
  pre_mode_text clock1 raw_text paper_config user_name signature (Some now) =
  pre_mode_text clock2 raw_text paper_config user_name signature (Some now).
Proof.
  unfold pre_mode_text. rewrite !now_or_clock_explicit.
  now rewrite (common_replacements_clock clock1 clock2).
Qed.

(** C1: with an explicit [now] the result is a function of the
    arguments alone: the time the call is made at (what
    [datetime.datetime.now()] would return) has no part in it, so two
    calls with the same arguments return the same fragment and the
    same field count. *)
Theorem render_deterministic (clock1 clock2 : datetime) (raw_text : pystr)
    (paper_config : PaperConfig) (user_name signature : option pystr)
    (is_crayon : bool) (now : datetime) :
  render_pencode_to_html clock1 raw_text paper_config user_name signature
    is_crayon (Some now) =
  render_pencode_to_html clock2 raw_text paper_config user_name signature
    is_crayon (Some now)
  /\ fst (render_pencode_to_html clock1 raw_text paper_config user_name
            signature is_crayon (Some now)) =
     fst (render_pencode_to_html clock2 raw_text paper_config user_name
            signature is_crayon (Some now))
  /\ snd (render_pencode_to_html clock1 raw_text paper_config user_name
            signature is_crayon (Some now)) =
     snd (render_pencode_to_html clock2 raw_text paper_config user_name
            signature is_crayon (Some now)).
Proof.
  assert (render_pencode_to_html clock1 raw_text paper_config user_name
            signature is_crayon (Some now) =
          render_pencode_to_html clock2 raw_text paper_config user_name
            signature is_crayon (Some now)) as H.
  { unfold render_pencode_to_html.
    now rewrite (pre_mode_text_clock clock1 clock2). }
  split; [exact H | now rewrite H].
Qed.

(** Without [now] the clock is read: the same arguments at two times
    give two fragments. *)
Remark render_reads_clock :
  render_pencode_to_html (mkDatetime 2024 3 7 9 5) (lit "[time]")
    default_config None None false None <>
  render_pencode_to_html (mkDatetime 2024 3 7 9 6) (lit "[time]")
    default_config None None false None.
Proof. vm_compute. discriminate. Qed.

Lemma render_empty (clock : datetime) (paper_config : PaperConfig)
    (user_name signature : option pystr) (is_crayon : bool)
    (now : option datetime) :
  fst (render_pencode_to_html clock [] paper_config user_name signature
         is_crayon now) =
  if is_crayon then crayon_wrap paper_config [] else pen_wrap paper_config [].
Proof. destruct is_crayon; reflexivity. Qed.

(** On a string the escaper raises nothing. *)
Lemma encode_byondish_html_exn_str (text : pystr) :
  encode_byondish_html_exn (VStr text) = Ok (encode_byondish_html text).
Proof. reflexivity. Qed.

(** On a [datetime] the two station texts are there, and the list of
    replacements is the one of the renderer. *)
Lemma common_replacements_exn_datetime (clock : datetime)
    (paper_config : PaperConfig) (now : datetime) :
  common_replacements_exn clock paper_config (VDatetime now) =
  Ok (common_replacements clock paper_config now).
Proof. reflexivity. Qed.

(** The guard [x and x.strip()] keeps [strip] away from [None]: on an
    optional string the condition is evaluated without an exception. *)
Lemma and_strip_optional (x : option pystr) :
  and_strip (of_optional x) =
  Ok (match nonblank x with Some _ => true | None => false end).
Proof.
  destruct x as [s|]; [|reflexivity].
  unfold and_strip, nonblank. cbn [of_optional value_truthy].
  destruct (truthy s); [|reflexivity].
  cbn [call_strip bind andb]. now destruct (truthy (strip s)).
Qed.

Lemma nonblank_strip (x : option pystr) (s : pystr) :
  nonblank x = Some s -> call_strip (of_optional x) = Ok s.
Proof.
  destruct x as [t|]; [|discriminate].
  cbn [nonblank of_optional call_strip].
  destruct (truthy t && truthy (strip t)); [|discriminate].
  now intros [= <-].
Qed.

Lemma resolved_signature_exn_optional (signature user_name : option pystr) :
  resolved_signature_exn (of_optional signature) (of_optional user_name) =
  Ok (resolved_signature signature user_name).
Proof.
  unfold resolved_signature_exn, resolved_signature.
  rewrite (and_strip_optional signature).
  destruct (nonblank signature) as [s|] eqn:Es; cbn [bind].
  - now apply nonblank_strip.
  - rewrite (and_strip_optional user_name).
    destruct (nonblank user_name) as [u|] eqn:Eu; cbn [bind].
    + now apply nonblank_strip.
    + reflexivity.
Qed.

Lemma sign_stage_exn_optional (paper_config : PaperConfig)
    (user_name signature : option pystr) (html_text : pystr) :
  sign_stage_exn paper_config (of_optional user_name) (of_optional signature)
    html_text =
  Ok (sign_stage paper_config user_name signature html_text).
Proof.
  unfold sign_stage_exn, sign_stage.
  destruct (contains (lit "[sign]") html_text); [|reflexivity].
  now rewrite resolved_signature_exn_optional.
Qed.

(** An optional [datetime] as a value. *)
Lemma value_or_clock_datetime (clock : datetime) (now : option datetime) :
  value_or_clock clock
    (match now with Some t => VDatetime t | None => VNone end) =
  VDatetime (now_or_clock clock now).
Proof. now destruct now. Qed.

(** On the arguments its annotations name, with or without [now], the
    renderer raises nothing and returns what [render_pencode_to_html]
    computes. *)
Lemma render_exn_annotated (clock : datetime) (raw_text : pystr)
    (paper_config : PaperConfig) (user_name signature : option pystr)
    (is_crayon : bool) (now : option datetime) :
  render_pencode_to_html_exn clock (VStr raw_text) paper_config
    (of_optional user_name) (of_optional signature) is_crayon
    (match now with Some t => VDatetime t | None => VNone end) =
  Ok (render_pencode_to_html clock raw_text paper_config user_name signature
        is_crayon now).
Proof.
  unfold render_pencode_to_html_exn, render_pencode_to_html, pre_mode_text.
  rewrite value_or_clock_datetime, encode_byondish_html_exn_str.
  cbn [bind]. rewrite common_replacements_exn_datetime. cbn [bind].
  rewrite sign_stage_exn_optional. reflexivity.
Qed.

Lemma field_count_nonnegative (clock : datetime) (raw_text : pystr)
    (paper_config : PaperConfig) (user_name signature : option pystr)
    (is_crayon : bool) (now : option datetime) :
  (0 <= snd (render_pencode_to_html clock raw_text paper_config user_name
               signature is_crayon now))%Z.
Proof. apply Zle_0_nat. Qed.

(** C9: called with a string, a configuration, an optional user name,
    an optional signature, either mode and an explicit [now], the
    renderer with its exceptions raises none: it returns the fragment
    and the field count of [render_pencode_to_html], and the count is
    not negative; on the empty text the fragment is the empty wrapper
    of the mode. *)
Theorem render_total (clock : datetime) (raw_text : pystr)
    (paper_config : PaperConfig) (user_name signature : option pystr)
    (is_crayon : bool) (now : datetime) :
  render_pencode_to_html_exn clock (VStr raw_text) paper_config
    (of_optional user_name) (of_optional signature) is_crayon
    (VDatetime now) =
  Ok (render_pencode_to_html clock raw_text paper_config user_name signature
        is_crayon (Some now))
  /\ (0 <= snd (render_pencode_to_html clock raw_text paper_config user_name
                  signature is_crayon (Some now)))%Z
  /\ (exists field_count : Z,
        render_pencode_to_html_exn clock (VStr []) paper_config
          (of_optional user_name) (of_optional signature) is_crayon
          (VDatetime now) =
        Ok (if is_crayon then crayon_wrap paper_config []
            else pen_wrap paper_config [], field_count)).
Proof.
  split; [|split].
  - apply (render_exn_annotated clock raw_text paper_config user_name
             signature is_crayon (Some now)).
  - apply field_count_nonnegative.
  - rewrite (render_exn_annotated clock [] paper_config user_name
               signature is_crayon (Some now)).
    exists (snd (render_pencode_to_html clock [] paper_config user_name
                   signature is_crayon (Some now))).
    rewrite <- (render_empty clock paper_config user_name signature
                  is_crayon (Some now)).
    now destruct (render_pencode_to_html _ _ _ _ _ _ _).
Qed.

(** The exceptions are there in the model: outside the annotated
    arguments the renderer raises as Python does.  A raw text that is
    [None] has no [replace]; a [datetime] has one that takes no
    strings. *)
Remark render_raises_on_none_text :
  render_pencode_to_html_exn example_now VNone default_config VNone VNone
    false (VDatetime example_now) = Raise AttributeError.
Proof. reflexivity. Qed.

Remark render_raises_on_datetime_text :
  render_pencode_to_html_exn example_now (VDatetime example_now)
    default_config VNone VNone false (VStr (lit "x")) = Raise TypeError.
Proof. reflexivity. Qed.

(** A [now] that is a string has no [strftime], unless it is empty and
    the clock is read in its place. *)
Remark render_raises_on_string_now :
  render_pencode_to_html_exn example_now (lit_value "hi") default_config
    VNone VNone false (VStr (lit "x")) = Raise AttributeError
  /\ render_pencode_to_html_exn example_now (lit_value "[time]")
       default_config VNone VNone false (VStr []) =
     Ok (render_pencode_to_html example_now (lit "[time]") default_config
           None None false None).
Proof. split; vm_compute; reflexivity. Qed.

(** A signature that is no string raises where it is resolved, that
    is, only when the text holds [[sign]]; and a user name that is no
    string only when the signature gives no text. *)
Remark render_raises_on_datetime_signature :
  render_pencode_to_html_exn example_now (lit_value "[sign]") default_config
    VNone (VDatetime example_now) false (VDatetime example_now) =
  Raise AttributeError
  /\ render_pencode_to_html_exn example_now (lit_value "hi") default_config
       VNone (VDatetime example_now) false (VDatetime example_now) =
     Ok (render_pencode_to_html example_now (lit "hi") default_config
           None None false (Some example_now))
  /\ render_pencode_to_html_exn example_now (lit_value "[sign]")
       default_config (VDatetime example_now) (lit_value "  ") false
       (VDatetime example_now) = Raise AttributeError
  /\ render_pencode_to_html_exn example_now (lit_value "[sign]")
       default_config (VDatetime example_now) (lit_value " a ") false
       (VDatetime example_now) =
     Ok (render_pencode_to_html example_now (lit "[sign]") default_config
           None (Some (lit "a")) false (Some example_now)).
Proof. repeat split; vm_compute; reflexivity. Qed.

End Purity.

(** ** Counting in a wrapped fragment *)

Section Counting.

Variable clock : datetime.

(** After an opening tag other than the one sought, and a stretch with
    no less-than sign, counting starts afresh. *)
Lemma count_after_open_tag (c2 d : char) (t mid tail : pystr) :
  c2 <> d -> d <> 60 -> lt_free mid ->
  count (60 :: c2 :: t) (60 :: d :: mid ++ tail) = count (60 :: c2 :: t) tail.
Proof.
  intros Hc2 Hd Hmid.
  rewrite count_miss; [| discriminate |].
  - change (d :: mid ++ tail) with ((d :: mid) ++ tail).
    apply count_app_nohead. now constructor.
  - cbn [starts_with]. apply N.eqb_neq in Hc2. now rewrite Hc2.
Qed.

Lemma lt_free_bool (s : pystr) :
  forallb (fun c => negb (c =? 60)) s = true -> lt_free s.
Proof.
  intros H. apply Forall_forall. intros c Hc.
  rewrite forallb_forall in H. apply N.eqb_neq, negb_true_iff. now apply H.
Qed.

Lemma lt_free_app (a b : pystr) : lt_free a -> lt_free b -> lt_free (a ++ b).
Proof. intros Ha Hb. apply Forall_app. now split. Qed.

Lemma lt_free_cons (c : char) (s : pystr) :
  c <> 60 -> lt_free s -> lt_free (c :: s).
Proof. intros Hc Hs. now constructor. Qed.

Lemma pen_wrap_shape (paper_config : PaperConfig) (inner : pystr) :
  pen_wrap paper_config inner =
  60 :: 102 ::
    (lit "ont face=" ++ dquote :: default_font paper_config ++
     dquote :: lit " color=" ++ pen_color paper_config ++ lit ">") ++
    (inner ++ lit "</font>").
Proof.
  unfold pen_wrap.
  change (lit "<font face=") with (60 :: 102 :: lit "ont face=").
  repeat (rewrite <- app_assoc || rewrite <- app_comm_cons).
  reflexivity.
Qed.

(** In pen mode a tag other than [font] is counted in the wrapped text
    alone, when font and colour hold no less-than sign. *)
Lemma count_pen_wrap (c2 : char) (t : pystr) (paper_config : PaperConfig)
    (inner : pystr) :
  c2 <> 102 ->
  lt_free (default_font paper_config) -> lt_free (pen_color paper_config) ->
  count (60 :: c2 :: t) (pen_wrap paper_config inner) =
  count (60 :: c2 :: t) (inner ++ lit "</font>").
Proof.
  intros Hc2 Hf Hp. rewrite pen_wrap_shape.
  apply count_after_open_tag; [exact Hc2 | discriminate |].
  apply lt_free_app; [apply lt_free_bool; reflexivity|].
  apply lt_free_cons; [discriminate|].
  apply lt_free_app; [exact Hf|].
  apply lt_free_cons; [discriminate|].
  apply lt_free_app; [apply lt_free_bool; reflexivity|].
  apply lt_free_app; [exact Hp | apply lt_free_bool; reflexivity].
Qed.

(** C5: the field count is the number of occurrences of the opening
    field span in the fragment that is returned; the text of two
    [[field]] tags has two, in pen mode under any configuration whose
    font and colour hold no less-than sign. *)
Theorem field_count_counts_spans :
  (forall (raw_text : pystr) (paper_config : PaperConfig)
          (user_name signature : option pystr) (is_crayon : bool)
          (now : option datetime),
      snd (render_pencode_to_html clock raw_text paper_config user_name
             signature is_crayon now) =
      Z.of_nat
        (count (lit "<span class=" ++ dquote :: lit "paper_field" ++ dquote :: lit ">")
           (fst (render_pencode_to_html clock raw_text paper_config user_name
                   signature is_crayon now))))
  /\ (forall (paper_config : PaperConfig) (user_name signature : option pystr)
             (now : option datetime),
         lt_free (default_font paper_config) ->
         lt_free (pen_color paper_config) ->
         snd (render_pencode_to_html clock (lit "[field][field]") paper_config
                user_name signature false now) = 2%Z).
Proof.
  split; [reflexivity|].
  intros paper_config user_name signature now Hf Hp.
  change (snd (render_pencode_to_html clock (lit "[field][field]") paper_config
                 user_name signature false now))
    with (Z.of_nat (count field_needle
                      (pen_wrap paper_config (field_span ++ field_span)))).
  unfold field_needle.
  change (lit "<span class=") with (60 :: 115 :: lit "pan class=").
  cbn [app]. rewrite count_pen_wrap by (discriminate || assumption).
  reflexivity.
Qed.

(** C7: in pen mode the text [[b]hi[/b]] renders to the bold element
    inside the default-font wrapper; under a configuration whose font
    and colour hold no less-than sign the fragment holds the bold
    element once and no field. *)
Theorem render_bold_example (paper_config : PaperConfig)
    (user_name signature : option pystr) (now : option datetime) :
  fst (render_pencode_to_html clock (lit "[b]hi[/b]") paper_config user_name
         signature false now) =
    lit "<font face=" ++ dquote :: default_font paper_config ++
    dquote :: lit " color=" ++ pen_color paper_config ++ lit ">" ++
    lit "<B>hi</B>" ++ lit "</font>"
  /\ (lt_free (default_font paper_config) ->
      lt_free (pen_color paper_config) ->
      count (lit "<B>hi</B>")
        (fst (render_pencode_to_html clock (lit "[b]hi[/b]") paper_config
                user_name signature false now)) = 1%nat
      /\ snd (render_pencode_to_html clock (lit "[b]hi[/b]") paper_config
                user_name signature false now) = 0%Z).
Proof.
  change (render_pencode_to_html clock (lit "[b]hi[/b]") paper_config user_name
            signature false now)
    with (pen_wrap paper_config (lit "<B>hi</B>"),
          Z.of_nat (count field_needle (pen_wrap paper_config (lit "<B>hi</B>")))).
  cbn [fst snd]. split; [reflexivity | intros Hf Hp; split].
  - change (lit "<B>hi</B>") with (60 :: 66 :: lit ">hi</B>") at 1.
    rewrite count_pen_wrap by (discriminate || assumption).
    reflexivity.
  - unfold field_needle.
    change (lit "<span class=") with (60 :: 115 :: lit "pan class=").
    cbn [app]. rewrite count_pen_wrap by (discriminate || assumption).
    reflexivity.
Qed.

End Counting.

Lemma field_count_counts_spans_witness :
  snd (render_pencode_to_html example_now (lit "[field][field]") default_config
         None None false None) = 2%Z.
Proof.
  apply (proj2 (field_count_counts_spans example_now) default_config None None None);
    apply lt_free_bool; reflexivity.
Defined.

Lemma render_bold_example_witness :
  count (lit "<B>hi</B>")
    (fst (render_pencode_to_html example_now (lit "[b]hi[/b]") default_config
            None None false None)) = 1%nat
  /\ snd (render_pencode_to_html example_now (lit "[b]hi[/b]") default_config
            None None false None) = 0%Z.
Proof.
  apply (proj2 (render_bold_example example_now default_config None None None));
    apply lt_free_bool; reflexivity.
Defined.

(** ** Crayon mode *)

Section Crayon.

Variable clock : datetime.

Lemma lt_free_guarded (s : pystr) : lt_free s -> lt_guarded s = true.
Proof.
  induction 1 as [|c s Hc _ IH]; [reflexivity|].
  cbn [lt_guarded]. apply N.eqb_neq in Hc. now rewrite Hc, IH.
Qed.

Lemma lt_guarded_tail (a b : pystr) :
  lt_guarded (a ++ b) = true -> lt_guarded b = true.
Proof.
  induction a as [|c a IH]; [easy|].
  cbn [app lt_guarded]. intros H.
  apply andb_prop in H as [_ H]. now apply IH.
Qed.

Lemma lt_guarded_app (a b : pystr) :
  lt_guarded a = true -> lt_guarded b = true -> lt_guarded (a ++ b) = true.
Proof.
  intros Ha Hb. induction a as [|c a IH]; [exact Hb|].
  cbn [app lt_guarded] in *.
  apply andb_prop in Ha as [Hc Ha].
  rewrite (IH Ha), andb_true_r.
  destruct (c =? 60); [|reflexivity].
  destruct a as [|d a]; [discriminate | exact Hc].
Qed.

(** Replacing a pencode tag by a guarded text keeps the text guarded:
    no tag starts right after a less-than sign. *)
Lemma lt_guarded_replace (t new s : pystr) :
  lt_guarded new = true -> lt_guarded s = true ->
  lt_guarded (replace (91 :: t) new s) = true.
Proof.
  intros Hnew. revert s.
  apply (replace_scan_ind (91 :: t)
           (fun s => lt_guarded s = true ->
                     lt_guarded (replace (91 :: t) new s) = true));
    [discriminate | reflexivity | intros r IH H | intros c r E IH H].
  - rewrite replace_hit by discriminate.
    apply lt_guarded_app; [exact Hnew|].
    apply IH. now apply (lt_guarded_tail (91 :: t)).
  - rewrite replace_miss by (discriminate || exact E).
    cbn [lt_guarded] in *. apply andb_prop in H as [Hc Hr].
    rewrite (IH Hr), andb_true_r.
    destruct (c =? 60); [|reflexivity].
    destruct r as [|d r]; [discriminate|].
    rewrite replace_miss; [exact Hc | discriminate |].
    apply starts_with_head. intros <-. discriminate.
Qed.

(** A guarded text holds no tag whose name starts with l or u. *)
Lemma lt_guarded_no_list_tag (d : char) (t s : pystr) :
  opens_list_tag d = true -> lt_guarded s = true ->
  contains (60 :: d :: t) s = false.
Proof.
  intros Hd. induction s as [|c s IH]; [reflexivity|].
  cbn [lt_guarded contains starts_with]. intros H.
  apply andb_prop in H as [Hc Hs].
  rewrite (IH Hs), orb_false_r.
  rewrite (N.eqb_sym 60 c).
  destruct (c =? 60); [|reflexivity].
  destruct s as [|e s]; [reflexivity|].
  cbn [andb].
  destruct (N.eqb_spec d e) as [<-|]; [|reflexivity].
  now rewrite Hd in Hc.
Qed.

Lemma replace_in_order_guarded (table : list (pystr * pystr)) :
  Forall (fun nr => (exists t, fst nr = 91 :: t) /\ lt_guarded (snd nr) = true)
         table ->
  forall s, lt_guarded s = true -> lt_guarded (_replace_in_order s table) = true.
Proof.
  induction 1 as [|[needle repl] table [[t Hn] Hr] _ IH]; intros s Hs;
    [exact Hs|].
  cbn [_replace_in_order fst snd] in *. subst needle.
  apply IH. now apply lt_guarded_replace.
Qed.

Lemma strip_tokens_guarded (tokens : list pystr) :
  Forall (fun token => exists t, token = 91 :: t) tokens ->
  forall s, lt_guarded s = true -> lt_guarded (strip_tokens tokens s) = true.
Proof.
  induction 1 as [|token tokens [t ->] _ IH]; intros s Hs; [exact Hs|].
  cbn [strip_tokens]. apply IH. now apply lt_guarded_replace.
Qed.

Lemma digit_not_lt (n : N) : digit n <> 60.
Proof. pose proof (digit_range n). lia. Qed.

Lemma station_time_text_lt_free (now : option datetime) :
  lt_free (station_time_text clock now).
Proof.
  unfold station_time_text, pad2.
  repeat (constructor; [apply digit_not_lt || discriminate|]). constructor.
Qed.

Lemma station_date_text_lt_free (now : option datetime) :
  lt_free (station_date_text clock now).
Proof.
  unfold station_date_text, pad2.
  apply Forall_app; split; [apply decimal_Forall, digit_not_lt|].
  repeat (constructor; [apply digit_not_lt || discriminate|]). constructor.
Qed.

Lemma common_replacements_guarded (paper_config : PaperConfig) (now : datetime) :
  lt_free (station_name paper_config) ->
  Forall (fun nr => (exists t, fst nr = 91 :: t) /\ lt_guarded (snd nr) = true)
         (common_replacements clock paper_config now).
Proof.
  intros H. unfold common_replacements.
  repeat (apply Forall_cons;
          [split; [eexists; reflexivity|];
           first [ reflexivity
                 | apply lt_free_guarded, station_time_text_lt_free
                 | apply lt_free_guarded, station_date_text_lt_free
                 | apply lt_free_guarded, H ] |]).
  apply Forall_nil.
Qed.

Lemma restricted_tokens_are_tags :
  Forall (fun token => exists t, token = 91 :: t) restricted_tokens.
Proof.
  repeat (apply Forall_cons; [eexists; reflexivity|]). apply Forall_nil.
Qed.

Lemma encode_lt_free (s : pystr) : lt_free (encode_byondish_html s).
Proof.
  rewrite encode_byondish_html_flat_map.
  eapply Forall_impl; [|apply flat_map_escape_no_raw_markup].
  intros c Hc. unfold is_raw_markup in Hc.
  repeat (apply orb_false_elim in Hc as [Hc ?]).
  now apply N.eqb_neq.
Qed.

Lemma strip_newlines_lt_free (s : pystr) :
  lt_free s -> lt_free (strip_newlines s).
Proof.
  intros H. rewrite strip_newlines_filter.
  apply Forall_forall. intros c Hc. apply filter_In in Hc as [Hc _].
  revert c Hc. now apply Forall_forall.
Qed.

Lemma signature_html_guarded (paper_config : PaperConfig) (text : pystr) :
  lt_free (sign_font paper_config) -> lt_free text ->
  lt_guarded (signature_html paper_config text) = true.
Proof.
  intros Hf Ht. unfold signature_html.
  apply lt_guarded_app; [reflexivity|].
  change (dquote :: sign_font paper_config ++
          dquote :: lit "><i>" ++ text ++ lit "</i></font>")
    with ((dquote :: sign_font paper_config) ++
          (dquote :: lit "><i>") ++ text ++ lit "</i></font>").
  apply lt_guarded_app;
    [apply lt_free_guarded, lt_free_cons; [discriminate | exact Hf]|].
  apply lt_guarded_app; [reflexivity|].
  apply lt_guarded_app; [now apply lt_free_guarded | reflexivity].
Qed.

Lemma pre_mode_text_guarded (raw_text : pystr) (paper_config : PaperConfig)
    (user_name signature : option pystr) (now : option datetime) :
  lt_free (station_name paper_config) -> lt_free (sign_font paper_config) ->
  lt_guarded (pre_mode_text clock raw_text paper_config user_name signature now)
  = true.
Proof.
  intros Hst Hsf. unfold pre_mode_text, sign_stage.
  match goal with
  | |- context [_replace_in_order ?s ?tbl] =>
      assert (lt_guarded (_replace_in_order s tbl) = true) as H
  end.
  { apply replace_in_order_guarded;
      [now apply common_replacements_guarded|].
    apply lt_free_guarded, strip_newlines_lt_free, encode_lt_free. }
  match goal with
  | |- context [if ?b then _ else _] => destruct b
  end; [|exact H].
  apply lt_guarded_replace; [|exact H].
  apply signature_html_guarded; [exact Hsf | apply encode_lt_free].
Qed.

Lemma crayon_wrap_guarded (paper_config : PaperConfig) (inner : pystr) :
  lt_free (crayon_font paper_config) -> lt_free (pen_color paper_config) ->
  lt_guarded inner = true ->
  lt_guarded (crayon_wrap paper_config inner) = true.
Proof.
  intros Hc Hp Hi. unfold crayon_wrap.
  apply lt_guarded_app; [reflexivity|].
  change (dquote :: crayon_font paper_config ++
          dquote :: lit " color=" ++ pen_color paper_config ++ lit ">" ++
          lit "<b>" ++ inner ++ lit "</b></font>")
    with ((dquote :: crayon_font paper_config) ++
          (dquote :: lit " color=") ++ pen_color paper_config ++ lit ">" ++
          lit "<b>" ++ inner ++ lit "</b></font>").
  apply lt_guarded_app;
    [apply lt_free_guarded, lt_free_cons; [discriminate | exact Hc]|].
  apply lt_guarded_app; [reflexivity|].
  apply lt_guarded_app; [now apply lt_free_guarded|].
  apply lt_guarded_app; [reflexivity|].
  apply lt_guarded_app; [reflexivity|].
  apply lt_guarded_app; [exact Hi | reflexivity].
Qed.

(** C6: in crayon mode the fragment is the crayon wrapper around the
    text in which the fourteen denylist tokens were replaced, one after
    the other in the order of the list, by the empty string; the list
    markup of the specification's example is gone; and under a
    configuration without less-than signs the fragment holds neither
    the [li] nor the [ul] tag, whatever the raw text, user name and
    signature are. *)
Theorem crayon_strips_denylist (raw_text : pystr) (paper_config : PaperConfig)
    (user_name signature : option pystr) (now : option datetime) :
  fst (render_pencode_to_html clock raw_text paper_config user_name signature
         true now) =
    lit "<font face=" ++ dquote :: crayon_font paper_config ++
    dquote :: lit " color=" ++ pen_color paper_config ++ lit ">" ++
    lit "<b>" ++
    fold_left (fun text token => replace token [] text)
      [ lit "[*]"; lit "[hr]"; lit "[small]"; lit "[/small]"; lit "[list]";
        lit "[/list]"; lit "[table]"; lit "[/table]"; lit "[row]";
        lit "[cell]"; lit "[/cell]"; lit "[/row]"; lit "[logo]";
        lit "[sglogo]" ]
      (pre_mode_text clock raw_text paper_config user_name signature now) ++
    lit "</b></font>"
  /\ fst (render_pencode_to_html clock (lit "[list][*]a[/list]") paper_config
            user_name signature true now) =
     lit "<font face=" ++ dquote :: crayon_font paper_config ++
     dquote :: lit " color=" ++ pen_color paper_config ++ lit ">" ++
     lit "<b>" ++ lit "a" ++ lit "</b></font>"
  /\ (lt_free (station_name paper_config) ->
      lt_free (sign_font paper_config) ->
      lt_free (crayon_font paper_config) ->
      lt_free (pen_color paper_config) ->
      contains (lit "<li>")
        (fst (render_pencode_to_html clock raw_text paper_config user_name
                signature true now)) = false
      /\ contains (lit "<ul>")
           (fst (render_pencode_to_html clock raw_text paper_config user_name
                   signature true now)) = false).
Proof.
  split; [reflexivity | split; [reflexivity|]].
  intros Hst Hsf Hcf Hpc.
  assert (lt_guarded
            (fst (render_pencode_to_html clock raw_text paper_config user_name
                    signature true now)) = true) as H.
  { cbn [render_pencode_to_html fst mode_stage].
    apply crayon_wrap_guarded; [exact Hcf | exact Hpc |].
    apply strip_tokens_guarded; [apply restricted_tokens_are_tags|].
    now apply pre_mode_text_guarded. }
  split; apply lt_guarded_no_list_tag; (reflexivity || exact H).
Qed.

End Crayon.

Lemma crayon_strips_denylist_witness :
  contains (lit "<li>")
    (fst (render_pencode_to_html example_now (lit "[list][*]a[/list]")
            default_config None None true None)) = false
  /\ contains (lit "<ul>")
       (fst (render_pencode_to_html example_now (lit "[list][*]a[/list]")
               default_config None None true None)) = false.
Proof.
  apply (crayon_strips_denylist example_now (lit "[list][*]a[/list]")
           default_config None None None);
    apply lt_free_bool; reflexivity.
Defined.

(** ** Signature resolution *)

Section Signature.

Variable clock : datetime.

Lemma nonblank_trimmed (x : option pystr) :
  nonblank x = if truthy (trimmed x) then Some (trimmed x) else None.
Proof.
  destruct x as [[|c s]|]; reflexivity.
Qed.

(** The code resolves to the trimmed signature, else to the trimmed
    user name, else to Anonymous. *)
Lemma resolved_signature_trimmed (signature user_name : option pystr) :
  resolved_signature signature user_name =
  if truthy (trimmed signature) then trimmed signature
  else if truthy (trimmed user_name) then trimmed user_name
  else lit "Anonymous".
Proof.
  unfold resolved_signature. rewrite !nonblank_trimmed.
  destruct (truthy (trimmed signature)); [reflexivity|].
  destruct (truthy (trimmed user_name)); reflexivity.
Qed.

(** The guard of the signature block changes nothing: without an
    occurrence [replace] is the identity. *)
Lemma sign_stage_replace (paper_config : PaperConfig)
    (user_name signature : option pystr) (html_text : pystr) :
  sign_stage paper_config user_name signature html_text =
  replace (lit "[sign]")
    (signature_html paper_config
       (encode_byondish_html (resolved_signature signature user_name)))
    html_text.
Proof.
  unfold sign_stage.
  destruct (contains (lit "[sign]") html_text) eqn:E; [reflexivity|].
  symmetry. apply replace_absent; [discriminate | exact E].
Qed.

(** C4, as the code has it: the signature block replaces every
    occurrence of [[sign]] in the text after the common substitutions
    by the sign-font italic wrapper around the escaped resolved text;
    the resolved text is the signature trimmed of surrounding
    whitespace when that is not empty, else the user name trimmed when
    that is not empty, else Anonymous; a blank signature with the user
    name Bob resolves to Bob. *)
Theorem signature_resolution (raw_text : pystr) (paper_config : PaperConfig)
    (user_name signature : option pystr) (now : option datetime) :
  pre_mode_text clock raw_text paper_config user_name signature now =
    replace (lit "[sign]")
      (lit "<font face=" ++ dquote :: sign_font paper_config ++
       dquote :: lit "><i>" ++
       encode_byondish_html (resolved_signature signature user_name) ++
       lit "</i></font>")
      (_replace_in_order (strip_newlines (encode_byondish_html raw_text))
         (common_replacements clock paper_config (now_or_clock clock now)))
  /\ resolved_signature signature user_name =
       (if truthy (trimmed signature) then trimmed signature
        else if truthy (trimmed user_name) then trimmed user_name
        else lit "Anonymous")
  /\ resolved_signature (Some (lit "  ")) (Some (lit "Bob")) = lit "Bob"
  /\ fst (render_pencode_to_html clock (lit "[sign]") default_config
            (Some (lit "Bob")) (Some (lit "  ")) false now) =
     lit "<font face=" ++ dquote :: lit "Verdana" ++ dquote ::
     lit " color=black><font face=" ++ dquote :: lit "Times New Roman" ++
     dquote :: lit "><i>Bob</i></font></font>".
Proof.
  split; [|split; [apply resolved_signature_trimmed | split; reflexivity]].
  unfold pre_mode_text. apply sign_stage_replace.
Qed.

End Signature.

(** C4 as stated fails where the signature has surrounding whitespace:
    the code writes the trimmed text, not the signature as passed. *)
Lemma untrimmed_signature_is_trimmed :
  sign_stage default_config None (Some (lit " Bob ")) (lit "[sign]") <>
  replace (lit "[sign]")
    (signature_html default_config
       (encode_byondish_html
          (spec_resolved_signature (Some (lit " Bob ")) None)))
    (lit "[sign]").
Proof. vm_compute. discriminate. Qed.

(** ** Pen mode: the table tags, and tags inside the signature *)

Section PenMode.

Variable clock : datetime.

Lemma bracket_free_bool (s : pystr) :
  forallb (fun c => negb (c =? 91)) s = true -> bracket_free s.
Proof.
  intros H. apply Forall_forall. intros c Hc.
  rewrite forallb_forall in H. apply N.eqb_neq, negb_true_iff. now apply H.
Qed.

(** A stretch without brackets in front of the text is passed over by
    every substitution of a table of tags. *)
Lemma replace_in_order_app_nohead (table : list (pystr * pystr)) :
  Forall (fun nr => exists t, fst nr = 91 :: t) table ->
  forall a b, bracket_free a ->
  _replace_in_order (a ++ b) table = a ++ _replace_in_order b table.
Proof.
  induction 1 as [|[needle repl] table [t Hn] _ IH]; intros a b Ha;
    [reflexivity|].
  cbn [_replace_in_order fst] in *. subst needle.
  rewrite replace_app_nohead by exact Ha. now apply IH.
Qed.

Lemma strip_tokens_app_nohead (tokens : list pystr) :
  Forall (fun token => exists t, token = 91 :: t) tokens ->
  forall a b, bracket_free a ->
  strip_tokens tokens (a ++ b) = a ++ strip_tokens tokens b.
Proof.
  induction 1 as [|token tokens [t ->] _ IH]; intros a b Ha; [reflexivity|].
  cbn [strip_tokens].
  rewrite replace_app_nohead by exact Ha. now apply IH.
Qed.

Lemma pen_only_replacements_are_tags :
  Forall (fun nr => exists t, fst nr = 91 :: t) pen_only_replacements.
Proof.
  repeat (apply Forall_cons; [eexists; reflexivity|]). apply Forall_nil.
Qed.

Lemma is_plain_inv (c : char) :
  is_plain c = true ->
  c <> 38 /\ is_raw_markup c = false /\ is_newline c = false /\ c <> 91.
Proof.
  unfold is_plain. intros H. apply negb_true_iff in H.
  repeat (apply orb_false_elim in H as [H ?]).
  repeat split; try assumption; now apply N.eqb_neq.
Qed.

Lemma plain_text_bracket_free (x : pystr) : plain_text x -> bracket_free x.
Proof.
  intros H. eapply Forall_impl; [|exact H].
  intros c Hc. now apply is_plain_inv in Hc.
Qed.

Lemma flat_map_escape_plain (x : pystr) :
  plain_text x -> flat_map escape_char x = x.
Proof.
  induction 1 as [|c x Hc _ IH]; [reflexivity|].
  apply is_plain_inv in Hc as (H38 & Hm & _ & _).
  cbn [flat_map]. now rewrite escape_char_plain, IH.
Qed.

Lemma plain_text_newline_free (x : pystr) : plain_text x -> newline_free x.
Proof.
  intros H. eapply Forall_impl; [|exact H].
  intros c Hc. now apply is_plain_inv in Hc.
Qed.

Lemma replace_sandwich (needle new P P' x S S' : pystr) :
  (exists t, needle = 91 :: t) ->
  bracket_free x ->
  (forall Y, replace needle new (P ++ Y) = P' ++ replace needle new Y) ->
  replace needle new S = S' ->
  replace needle new (P ++ x ++ S) = P' ++ x ++ S'.
Proof.
  intros [t ->] Hx HP HS.
  rewrite HP, replace_app_nohead by exact Hx. do 2 f_equal. exact HS.
Qed.

Lemma replace_in_order_sandwich (table : list (pystr * pystr)) (P x S : pystr) :
  Forall (fun nr =>
            (exists t, fst nr = 91 :: t) /\
            (forall Y, replace (fst nr) (snd nr) (P ++ Y) =
                       P ++ replace (fst nr) (snd nr) Y) /\
            replace (fst nr) (snd nr) S = S) table ->
  bracket_free x ->
  _replace_in_order (P ++ x ++ S) table = P ++ x ++ S.
Proof.
  intros Ht Hx.
  induction Ht as [|[needle repl] table ([t Hn] & HP & HS) _ IH]; [reflexivity|].
  cbn [_replace_in_order fst snd] in *.
  rewrite (replace_sandwich needle repl P P x S S); eauto.
Qed.

Lemma replace_in_order_bracket_free (table : list (pystr * pystr)) (s : pystr) :
  Forall (fun nr => exists t, fst nr = 91 :: t) table ->
  bracket_free s -> _replace_in_order s table = s.
Proof.
  intros Ht Hs.
  rewrite <- (app_nil_r s) at 1.
  rewrite replace_in_order_app_nohead by assumption.
  assert (forall tbl, Forall (fun nr : pystr * pystr => exists t, fst nr = 91 :: t) tbl ->
                      _replace_in_order [] tbl = []) as Hnil.
  { induction 1 as [|[n r] tbl [t Hn] _ IH]; [reflexivity|].
    cbn [_replace_in_order fst] in *. subst n. exact IH. }
  rewrite Hnil by exact Ht. apply app_nil_r.
Qed.

Lemma common_sandwich (paper_config : PaperConfig) (now : datetime) (x : pystr) :
  bracket_free x ->
  _replace_in_order (lit "[table]" ++ x ++ lit "[/table]")
    (common_replacements clock paper_config now) =
  lit "[table]" ++ x ++ lit "[/table]".
Proof.
  intros Hx. apply replace_in_order_sandwich; [|exact Hx].
  unfold common_replacements.
  repeat (apply Forall_cons;
          [split; [eexists; reflexivity | split; [intros Y; reflexivity | reflexivity]]|]).
  apply Forall_nil.
Qed.


Lemma replace_in_order_app (s : pystr) (a b : list (pystr * pystr)) :
  _replace_in_order s (a ++ b) = _replace_in_order (_replace_in_order s a) b.
Proof.
  revert s; induction a as [|[n r] a IH]; intros s; [reflexivity|].
  cbn [app _replace_in_order]. apply IH.
Qed.

Lemma replace_bracket_prefix (needle new a b : pystr) :
  (exists t, needle = 91 :: t) -> bracket_free a ->
  replace needle new (a ++ b) = a ++ replace needle new b.
Proof. intros [t ->]. apply replace_app_nohead. Qed.

Lemma table_open_bracket_free : bracket_free table_open.
Proof. apply bracket_free_bool. reflexivity. Qed.

Lemma pen_first6 :
  Forall (fun nr =>
            (exists t, fst nr = 91 :: t) /\
            (forall Y, replace (fst nr) (snd nr) (lit "[table]" ++ Y) =
                       lit "[table]" ++ replace (fst nr) (snd nr) Y) /\
            replace (fst nr) (snd nr) (lit "[/table]") = lit "[/table]")
         (firstn 6 pen_only_replacements).
Proof.
  cbn [firstn pen_only_replacements].
  repeat (apply Forall_cons;
          [split; [eexists; reflexivity
                  | split; [intros Y; reflexivity | reflexivity]]|]).
  apply Forall_nil.
Qed.

Lemma pen_tail_entries :
  skipn 6 pen_only_replacements =
  (lit "[table]", table_open)
    :: (lit "[/table]", lit "</td></tr></table>")
    :: skipn 8 pen_only_replacements.
Proof. reflexivity. Qed.

Lemma pen_rest_tags :
  Forall (fun nr : pystr * pystr => exists t, fst nr = 91 :: t)
         (skipn 8 pen_only_replacements).
Proof.
  cbn [skipn pen_only_replacements].
  repeat (apply Forall_cons; [eexists; reflexivity|]). apply Forall_nil.
Qed.

Lemma table_in_close :
  replace (lit "[table]") table_open (lit "[/table]") = lit "[/table]".
Proof. vm_compute. reflexivity. Qed.

Lemma close_in_close :
  replace (lit "[/table]") (lit "</td></tr></table>") (lit "[/table]") =
  lit "</td></tr></table>".
Proof. vm_compute. reflexivity. Qed.

Lemma replace_in_order_cons (s needle repl : pystr) (more : list (pystr * pystr)) :
  _replace_in_order s ((needle, repl) :: more) =
  _replace_in_order (replace needle repl s) more.
Proof. reflexivity. Qed.

Lemma pen_sandwich (x : pystr) :
  bracket_free x ->
  _replace_in_order (lit "[table]" ++ x ++ lit "[/table]") pen_only_replacements =
  table_open ++ x ++ lit "</td></tr></table>".
Proof.
  intros Hx.
  rewrite <- (firstn_skipn 6 pen_only_replacements), replace_in_order_app.
  rewrite (replace_in_order_sandwich (firstn 6 pen_only_replacements))
    by (apply pen_first6 || exact Hx).
  rewrite pen_tail_entries, !replace_in_order_cons.
  rewrite (replace_hit (lit "[table]")) by discriminate.
  rewrite (replace_bracket_prefix (lit "[table]") table_open x)
    by ((eexists; reflexivity) || exact Hx).
  assert (bracket_free (table_open ++ x)) as Hpre
    by (apply Forall_app; split; [apply table_open_bracket_free | exact Hx]).
  rewrite (app_assoc table_open x).
  rewrite (replace_bracket_prefix (lit "[/table]") _ (table_open ++ x))
    by ((eexists; reflexivity) || exact Hpre).
  rewrite table_in_close, close_in_close, <- app_assoc.
  apply replace_in_order_bracket_free; [apply pen_rest_tags|].
  apply Forall_app; split; [apply table_open_bracket_free|].
  apply Forall_app; split; [exact Hx | apply bracket_free_bool; reflexivity].
Qed.

Lemma escape_free_bool (s : pystr) :
  forallb (fun c => negb ((c =? 38) || is_raw_markup c)) s = true ->
  flat_map escape_char s = s.
Proof.
  induction s as [|c s IH]; [reflexivity|].
  cbn [forallb flat_map]. intros H. apply andb_prop in H as [Hc Hs].
  apply negb_true_iff, orb_false_elim in Hc as [H38 Hm].
  apply N.eqb_neq in H38.
  now rewrite escape_char_plain, IH.
Qed.

Lemma render_pen_fst (raw_text : pystr) (paper_config : PaperConfig)
    (user_name signature : option pystr) (now : option datetime) :
  fst (render_pencode_to_html clock raw_text paper_config user_name signature
         false now) =
  pen_wrap paper_config
    (_replace_in_order
       (sign_stage paper_config user_name signature
          (_replace_in_order (strip_newlines (encode_byondish_html raw_text))
             (common_replacements clock paper_config (now_or_clock clock now))))
       pen_only_replacements).
Proof. reflexivity. Qed.

Lemma render_table_body (paper_config : PaperConfig)
    (user_name signature : option pystr) (now : option datetime) (x : pystr) :
  plain_text x ->
  fst (render_pencode_to_html clock (lit "[table]" ++ x ++ lit "[/table]")
         paper_config user_name signature false now) =
  pen_wrap paper_config (table_open ++ x ++ lit "</td></tr></table>").
Proof.
  intros Hx. pose proof (plain_text_bracket_free x Hx) as Hb.
  rewrite render_pen_fst. f_equal.
  rewrite encode_byondish_html_flat_map, !flat_map_app,
    (flat_map_escape_plain x Hx).
  rewrite !escape_free_bool by reflexivity.
  rewrite strip_newlines_filter, filter_newline_free.
  - rewrite common_sandwich by exact Hb.
    rewrite sign_stage_replace.
    rewrite (replace_sandwich _ _ (lit "[table]") (lit "[table]") x
               (lit "[/table]") (lit "[/table]"));
      [| eexists; reflexivity | exact Hb | intros Y; reflexivity | reflexivity].
    now apply pen_sandwich.
  - apply newline_free_app; [apply newline_free_bool; reflexivity|].
    apply newline_free_app;
      [now apply plain_text_newline_free | apply newline_free_bool; reflexivity].
Qed.

(** C8: in pen mode [[table]] becomes the opening tag of the table with
    border 1, cell spacing 0, cell padding 3 and the 1px solid black
    border style, character for character, and [[/table]] becomes the
    three closing tags; so for the text of the specification's example
    and for every body of plain characters between the two tags. *)
Theorem pen_table_tags (paper_config : PaperConfig)
    (user_name signature : option pystr) (now : option datetime) :
  In (lit "[table]",
      lit "<table border=1 cellspacing=0 cellpadding=3 style='border: 1px solid black;'>")
     pen_only_replacements
  /\ In (lit "[/table]", lit "</td></tr></table>") pen_only_replacements
  /\ fst (render_pencode_to_html clock (lit "[table]") paper_config user_name
            signature false now) =
     pen_wrap paper_config
       (lit "<table border=1 cellspacing=0 cellpadding=3 style='border: 1px solid black;'>")
  /\ fst (render_pencode_to_html clock (lit "[/table]") paper_config user_name
            signature false now) =
     pen_wrap paper_config (lit "</td></tr></table>")
  /\ fst (render_pencode_to_html clock (lit "[table]...[/table]") paper_config
            user_name signature false now) =
     lit "<font face=" ++ dquote :: default_font paper_config ++
     dquote :: lit " color=" ++ pen_color paper_config ++ lit ">" ++
     lit "<table border=1 cellspacing=0 cellpadding=3 style='border: 1px solid black;'>" ++
     lit "..." ++ lit "</td></tr></table>" ++ lit "</font>"
  /\ (forall body : pystr,
         plain_text body ->
         fst (render_pencode_to_html clock
                (lit "[table]" ++ body ++ lit "[/table]") paper_config
                user_name signature false now) =
         lit "<font face=" ++ dquote :: default_font paper_config ++
         dquote :: lit " color=" ++ pen_color paper_config ++ lit ">" ++
         (lit "<table border=1 cellspacing=0 cellpadding=3 style='border: 1px solid black;'>" ++
          body ++ lit "</td></tr></table>") ++ lit "</font>").
Proof.
  split; [|split; [|split; [reflexivity | split; [reflexivity | split]]]].
  - unfold pen_only_replacements. do 6 right. left. reflexivity.
  - unfold pen_only_replacements. do 7 right. left. reflexivity.
  - reflexivity.
  - intros body Hbody. now apply render_table_body.
Qed.

Lemma signature_html_shape (paper_config : PaperConfig) (text : pystr) :
  signature_html paper_config text =
  (lit "<font face=" ++ dquote :: sign_font paper_config) ++
  (dquote :: lit "><i>" ++ text ++ lit "</i></font>").
Proof.
  unfold signature_html.
  repeat (rewrite <- app_assoc || rewrite <- app_comm_cons).
  reflexivity.
Qed.

(** C10: the escaping keeps the brackets, and the signature is put in
    before the mode branch, so a tag inside the signature is handled by
    the mode branch: under a configuration whose sign font has no
    bracket, the signature [[hr]] comes out in pen mode as the rule
    element inside the signature wrapper, and in crayon mode as nothing
    inside it. *)
Theorem signature_tags_substituted (paper_config : PaperConfig)
    (user_name : option pystr) (now : option datetime) :
  bracket_free (sign_font paper_config) ->
  encode_byondish_html (resolved_signature (Some (lit "[hr]")) user_name) =
    lit "[hr]"
  /\ fst (render_pencode_to_html clock (lit "[sign]") paper_config user_name
            (Some (lit "[hr]")) false now) =
     pen_wrap paper_config
       (lit "<font face=" ++ dquote :: sign_font paper_config ++
        dquote :: lit "><i>" ++ lit "<HR>" ++ lit "</i></font>")
  /\ fst (render_pencode_to_html clock (lit "[sign]") paper_config user_name
            (Some (lit "[hr]")) true now) =
     crayon_wrap paper_config
       (lit "<font face=" ++ dquote :: sign_font paper_config ++
        dquote :: lit "><i>" ++ lit "</i></font>").
Proof.
  intros Hf.
  assert (bracket_free (lit "<font face=" ++ dquote :: sign_font paper_config))
    as Hpre.
  { apply Forall_app; split; [apply bracket_free_bool; reflexivity|].
    constructor; [discriminate | exact Hf]. }
  assert (pre_mode_text clock (lit "[sign]") paper_config user_name
            (Some (lit "[hr]")) now =
          signature_html paper_config (lit "[hr]")) as Hpm
    by (rewrite <- (app_nil_r (signature_html _ _)); reflexivity).
  split; [reflexivity | split].
  - cbn [render_pencode_to_html fst mode_stage].
    rewrite Hpm, signature_html_shape.
    rewrite replace_in_order_app_nohead
      by (apply pen_only_replacements_are_tags || exact Hpre).
    rewrite <- app_assoc, <- app_comm_cons. reflexivity.
  - cbn [render_pencode_to_html fst mode_stage].
    rewrite Hpm, signature_html_shape.
    rewrite strip_tokens_app_nohead
      by (apply restricted_tokens_are_tags || exact Hpre).
    rewrite <- app_assoc, <- app_comm_cons. reflexivity.
Qed.

End PenMode.

Lemma signature_tags_substituted_witness :
  fst (render_pencode_to_html example_now (lit "[sign]") default_config None
         (Some (lit "[hr]")) false None) =
  lit "<font face=" ++ dquote :: lit "Verdana" ++ dquote ::
  lit " color=black><font face=" ++ dquote :: lit "Times New Roman" ++
  dquote :: lit "><i><HR></i></font></font>".
Proof.
  apply (signature_tags_substituted example_now default_config None None).
  apply bracket_free_bool; reflexivity.
Defined.

Lemma encode_byondish_html_escapes_witness :
  exists body, In body reference_bodies /\ starts_with body (lit "amp;b") = true.
Proof.
  apply (proj2 (proj2 (proj2 (proj2 (proj2 (proj2 (proj2 (proj2
           (encode_byondish_html_escapes (lit "a&b"))))))))) (lit "a") (lit "amp;b")).
  reflexivity.
Defined.

Lemma pen_table_tags_witness :
  fst (render_pencode_to_html example_now (lit "[table]" ++ lit "a b" ++ lit "[/table]")
         default_config None None false None) =
  lit "<font face=" ++ dquote :: lit "Verdana" ++ dquote ::
  lit " color=black>" ++
  lit "<table border=1 cellspacing=0 cellpadding=3 style='border: 1px solid black;'>" ++
  lit "a b</td></tr></table></font>".
Proof.
  apply (proj2 (proj2 (proj2 (proj2 (proj2
           (pen_table_tags example_now default_config None None None)))))
           (lit "a b")).
  repeat constructor.
Defined.

(** ** Only the renderer's own tags *)

Section KnownTags.

Variable clock : datetime.

(** A tag start is two characters, none of them a bracket. *)
Lemma tag_start_shape (rest : pystr) :
  existsb (fun p => starts_with p rest) tag_starts = true ->
  exists d1 d2 r,
    rest = d1 :: d2 :: r /\ d1 <> 91 /\ d2 <> 91 /\
    forall r', existsb (fun p => starts_with p (d1 :: d2 :: r')) tag_starts = true.
Proof.
  intros H. apply existsb_exists in H as (p & Hin & Hp).
  apply starts_with_split in Hp.
  unfold tag_starts in Hin. cbn [In] in Hin.
  repeat (destruct Hin as [<-|Hin];
          [rewrite Hp; eexists; eexists; eexists;
           split; [reflexivity |
           split; [discriminate |
           split; [discriminate | intros r'; reflexivity]]]|]).
  destruct Hin.
Qed.

Lemma tags_known_tail (a b : pystr) :
  tags_known (a ++ b) = true -> tags_known b = true.
Proof.
  induction a as [|c a IH]; [easy|].
  cbn [app tags_known]. intros H.
  apply andb_prop in H as [_ H]. now apply IH.
Qed.

Lemma tags_known_app (a b : pystr) :
  tags_known a = true -> tags_known b = true -> tags_known (a ++ b) = true.
Proof.
  intros Ha Hb. induction a as [|c a IH]; [exact Hb|].
  cbn [app tags_known] in *.
  apply andb_prop in Ha as [Hc Ha].
  rewrite (IH Ha), andb_true_r.
  destruct (c =? 60); [|reflexivity].
  apply tag_start_shape in Hc as (d1 & d2 & r & -> & _ & _ & Hall).
  apply Hall.
Qed.

Lemma lt_free_tags_known (s : pystr) : lt_free s -> tags_known s = true.
Proof.
  induction 1 as [|c s Hc _ IH]; [reflexivity|].
  cbn [tags_known]. apply N.eqb_neq in Hc. now rewrite Hc, IH.
Qed.

(** Replacing a pencode tag never touches the two characters after a
    less-than sign. *)
Lemma tags_known_replace (needle new s : pystr) :
  (exists t, needle = 91 :: t) ->
  tags_known new = true -> tags_known s = true ->
  tags_known (replace needle new s) = true.
Proof.
  intros [t ->] Hnew. revert s.
  apply (replace_scan_ind (91 :: t)
           (fun s => tags_known s = true ->
                     tags_known (replace (91 :: t) new s) = true));
    [discriminate | reflexivity | intros r IH H | intros c r E IH H].
  - rewrite replace_hit by discriminate.
    apply tags_known_app; [exact Hnew|].
    apply IH. now apply (tags_known_tail (91 :: t)).
  - rewrite replace_miss by (discriminate || exact E).
    cbn [tags_known] in *. apply andb_prop in H as [Hc Hr].
    rewrite (IH Hr), andb_true_r.
    destruct (c =? 60); [|reflexivity].
    apply tag_start_shape in Hc as (d1 & d2 & r' & -> & H1 & H2 & Hall).
    rewrite replace_miss;
      [| discriminate | apply starts_with_head; congruence].
    rewrite replace_miss;
      [| discriminate | apply starts_with_head; congruence].
    apply Hall.
Qed.

Lemma replace_in_order_tags_known (table : list (pystr * pystr)) :
  Forall (fun nr => (exists t, fst nr = 91 :: t) /\ tags_known (snd nr) = true)
         table ->
  forall s, tags_known s = true -> tags_known (_replace_in_order s table) = true.
Proof.
  induction 1 as [|[needle repl] table [Hn Hr] _ IH]; intros s Hs;
    [exact Hs|].
  cbn [_replace_in_order fst snd] in *.
  apply IH. now apply tags_known_replace.
Qed.

Lemma strip_tokens_tags_known (tokens : list pystr) :
  Forall (fun token => exists t, token = 91 :: t) tokens ->
  forall s, tags_known s = true -> tags_known (strip_tokens tokens s) = true.
Proof.
  induction 1 as [|token tokens Ht _ IH]; intros s Hs; [exact Hs|].
  cbn [strip_tokens]. apply IH. now apply tags_known_replace.
Qed.

Lemma common_replacements_tags_known (paper_config : PaperConfig)
    (now : datetime) :
  lt_free (station_name paper_config) ->
  Forall (fun nr => (exists t, fst nr = 91 :: t) /\ tags_known (snd nr) = true)
         (common_replacements clock paper_config now).
Proof.
  intros H. unfold common_replacements.
  repeat (apply Forall_cons;
          [split; [eexists; reflexivity|];
           first [ reflexivity
                 | apply lt_free_tags_known, station_time_text_lt_free
                 | apply lt_free_tags_known, station_date_text_lt_free
                 | apply lt_free_tags_known, H ] |]).
  apply Forall_nil.
Qed.

Lemma pen_only_replacements_tags_known :
  Forall (fun nr => (exists t, fst nr = 91 :: t) /\ tags_known (snd nr) = true)
         pen_only_replacements.
Proof.
  unfold pen_only_replacements.
  repeat (apply Forall_cons; [split; [eexists; reflexivity | reflexivity]|]).
  apply Forall_nil.
Qed.

Lemma signature_html_tags_known (paper_config : PaperConfig) (text : pystr) :
  lt_free (sign_font paper_config) -> lt_free text ->
  tags_known (signature_html paper_config text) = true.
Proof.
  intros Hf Ht. rewrite signature_html_shape.
  apply tags_known_app.
  - apply tags_known_app; [reflexivity|].
    apply lt_free_tags_known, lt_free_cons; [discriminate | exact Hf].
  - change (dquote :: lit "><i>" ++ text ++ lit "</i></font>")
      with ((dquote :: lit "><i>") ++ text ++ lit "</i></font>").
    apply tags_known_app; [reflexivity|].
    apply tags_known_app; [now apply lt_free_tags_known | reflexivity].
Qed.

Lemma pre_mode_text_tags_known (raw_text : pystr) (paper_config : PaperConfig)
    (user_name signature : option pystr) (now : option datetime) :
  lt_free (station_name paper_config) -> lt_free (sign_font paper_config) ->
  tags_known (pre_mode_text clock raw_text paper_config user_name signature now)
  = true.
Proof.
  intros Hst Hsf. unfold pre_mode_text. rewrite sign_stage_replace.
  apply tags_known_replace; [eexists; reflexivity | |].
  - apply signature_html_tags_known; [exact Hsf | apply encode_lt_free].
  - apply replace_in_order_tags_known;
      [now apply common_replacements_tags_known|].
    apply lt_free_tags_known, strip_newlines_lt_free, encode_lt_free.
Qed.

Lemma wrap_tags_known (open_ font close_ color rest : pystr) :
  tags_known open_ = true -> lt_free font -> lt_free close_ ->
  lt_free color -> tags_known rest = true ->
  tags_known (open_ ++ dquote :: font ++ dquote :: close_ ++ color ++ rest) = true.
Proof.
  intros Ho Hf Hc Hcol Hr.
  apply tags_known_app; [exact Ho|].
  change (dquote :: font ++ dquote :: close_ ++ color ++ rest)
    with ((dquote :: font) ++ (dquote :: close_) ++ color ++ rest).
  apply tags_known_app;
    [apply lt_free_tags_known, lt_free_cons; [discriminate | exact Hf]|].
  apply tags_known_app;
    [apply lt_free_tags_known, lt_free_cons; [discriminate | exact Hc]|].
  apply tags_known_app; [now apply lt_free_tags_known | exact Hr].
Qed.

Lemma mode_stage_tags_known (paper_config : PaperConfig) (is_crayon : bool)
    (s : pystr) :
  config_lt_free paper_config -> tags_known s = true ->
  tags_known (mode_stage paper_config is_crayon s) = true.
Proof.
  intros (_ & Hd & _ & Hc & Hp) Hs. unfold mode_stage.
  destruct is_crayon.
  - unfold crayon_wrap.
    apply wrap_tags_known;
      [reflexivity | exact Hc | apply lt_free_bool; reflexivity | exact Hp |].
    apply tags_known_app; [reflexivity|].
    apply tags_known_app; [reflexivity|].
    apply tags_known_app; [|reflexivity].
    apply strip_tokens_tags_known; [apply restricted_tokens_are_tags | exact Hs].
  - unfold pen_wrap.
    apply wrap_tags_known;
      [reflexivity | exact Hd | apply lt_free_bool; reflexivity | exact Hp |].
    apply tags_known_app; [reflexivity|].
    apply tags_known_app; [|reflexivity].
    apply replace_in_order_tags_known;
      [apply pen_only_replacements_tags_known | exact Hs].
Qed.

Lemma tags_known_at (s pre post : pystr) :
  tags_known s = true -> s = pre ++ 60 :: post ->
  exists p, In p tag_starts /\ starts_with p post = true.
Proof.
  revert s; induction pre as [|a pre IH]; intros s Hs ->.
  - cbn [app tags_known] in Hs. rewrite N.eqb_refl in Hs.
    apply andb_prop in Hs as [Hs _].
    apply existsb_exists in Hs. exact Hs.
  - cbn [app tags_known] in Hs. apply andb_prop in Hs as [_ Hs].
    now apply (IH (pre ++ 60 :: post)).
Qed.

Lemma starts_with_app_long (p t r : pystr) :
  (List.length p <= List.length t)%nat ->
  starts_with p (t ++ r) = starts_with p t.
Proof.
  revert t; induction p as [|a p IH]; intros [|b t] H; cbn in *;
    try reflexivity; try lia.
  rewrite IH by lia. reflexivity.
Qed.

(** A tag that does not begin like one of the renderer's is in no text
    whose tags are known. *)
Lemma tags_known_no_other_tag (t s : pystr) :
  (2 <= List.length t)%nat ->
  existsb (fun p => starts_with p t) tag_starts = false ->
  tags_known s = true -> contains (60 :: t) s = false.
Proof.
  intros Hlen Ht. induction s as [|c s IH]; [reflexivity|].
  cbn [tags_known contains starts_with]. intros H.
  apply andb_prop in H as [Hc Hs].
  rewrite (IH Hs), orb_false_r, (N.eqb_sym 60 c).
  destruct (c =? 60); [|reflexivity].
  cbn [andb]. destruct (starts_with t s) eqn:E; [|reflexivity].
  apply starts_with_split in E. rewrite E in Hc.
  assert (existsb (fun p => starts_with p (t ++ skipn (List.length t) s)) tag_starts =
          existsb (fun p => starts_with p t) tag_starts) as Heq.
  { unfold tag_starts. cbn [existsb].
    rewrite !starts_with_app_long by exact Hlen. reflexivity. }
  congruence.
Qed.

(** X4: Whatever the raw text, the user name and the signature are, every
    less-than sign of the fragment opens one of the tags the renderer
    itself writes, under a configuration without less-than signs; so
    the fragment holds no script tag. *)
Theorem fragment_tags_known (raw_text : pystr) (paper_config : PaperConfig)
    (user_name signature : option pystr) (is_crayon : bool)
    (now : option datetime) :
  config_lt_free paper_config ->
  (forall pre post,
      fst (render_pencode_to_html clock raw_text paper_config user_name
             signature is_crayon now) = pre ++ 60 :: post ->
      exists p, In p tag_starts /\ starts_with p post = true)
  /\ contains (lit "<script")
       (fst (render_pencode_to_html clock raw_text paper_config user_name
               signature is_crayon now)) = false.
Proof.
  intros Hcfg.
  assert (tags_known
            (fst (render_pencode_to_html clock raw_text paper_config user_name
                    signature is_crayon now)) = true) as H.
  { cbn [render_pencode_to_html fst].
    apply mode_stage_tags_known; [exact Hcfg|].
    destruct Hcfg as (Hst & _ & Hsf & _).
    now apply pre_mode_text_tags_known. }
  split.
  - intros pre post. now apply tags_known_at.
  - apply (tags_known_no_other_tag (lit "script"));
      [cbn; lia | reflexivity | exact H].
Qed.

End KnownTags.

Lemma default_config_lt_free : config_lt_free default_config.
Proof. repeat split; apply lt_free_bool; reflexivity. Qed.

Lemma fragment_tags_known_witness :
  contains (lit "<script")
    (fst (render_pencode_to_html example_now
            (lit "<script>alert(1)</script>[b]x[/b][sign]") default_config
            None (Some (lit "<script>")) false None)) = false.
Proof.
  apply (fragment_tags_known example_now
           (lit "<script>alert(1)</script>[b]x[/b][sign]") default_config
           None (Some (lit "<script>")) false None).
  apply default_config_lt_free.
Defined.

(** ** Replacing piece by piece *)

Section Pieces.

Lemma starts_with_app_cases (needle u rest : pystr) :
  starts_with needle (u ++ rest) = true ->
  starts_with needle u = true \/
  (starts_with u needle = true /\ (List.length u < List.length needle)%nat).
Proof.
  revert u; induction needle as [|a needle IH]; intros u H; [now left|].
  destruct u as [|b u].
  - right. split; [reflexivity | cbn; lia].
  - cbn [app starts_with] in H. apply andb_prop in H as [Hab H].
    destruct (IH u H) as [Hl | [Hr Hlen]].
    + left. cbn [starts_with]. now rewrite Hab, Hl.
    + right. cbn [starts_with List.length]. rewrite (N.eqb_sym b a), Hab, Hr.
      split; [reflexivity | lia].
Qed.

Lemma no_partial_tail (needle a b : pystr) :
  no_partial needle (a ++ b) = true -> no_partial needle b = true.
Proof.
  induction a as [|c a IH]; [easy|].
  cbn [app no_partial]. intros H.
  apply andb_prop in H as [_ H]. now apply IH.
Qed.

(** A piece that leaves no occurrence unfinished is replaced on its own. *)
Lemma no_partial_replaced_alone (needle repl piece : pystr) :
  needle <> [] -> no_partial needle piece = true ->
  replaced_alone needle repl piece.
Proof.
  intros Hn. revert piece.
  apply (replace_scan_ind needle
           (fun piece => no_partial needle piece = true ->
                         replaced_alone needle repl piece));
    [exact Hn | | |].
  - intros _ rest. now rewrite replace_nil.
  - intros r IH H rest. apply no_partial_tail in H.
    rewrite <- app_assoc, !replace_hit by exact Hn.
    rewrite (IH H rest). apply app_assoc.
  - intros c r E IH H rest.
    cbn [no_partial] in H. apply andb_prop in H as [Hc Hr].
    assert (starts_with needle ((c :: r) ++ rest) = false) as E'.
    { destruct (starts_with needle ((c :: r) ++ rest)) eqn:E2; [|reflexivity].
      apply starts_with_app_cases in E2 as [E2 | [E2 Hlen]]; [congruence|].
      apply Nat.ltb_lt in Hlen. now rewrite E2, Hlen in Hc. }
    cbn [app] in *. rewrite !replace_miss by assumption.
    cbn [app]. f_equal. now apply IH.
Qed.

(** A piece without brackets is replaced on its own, to itself. *)
Lemma bracket_free_replace (needle repl piece : pystr) :
  (exists t, needle = 91 :: t) -> bracket_free piece ->
  replace needle repl piece = piece.
Proof.
  intros [t ->] H.
  rewrite <- (app_nil_r piece) at 1.
  rewrite replace_app_nohead by exact H.
  rewrite replace_nil by discriminate. apply app_nil_r.
Qed.

Lemma bracket_free_replaced_alone (needle repl piece : pystr) :
  (exists t, needle = 91 :: t) -> bracket_free piece ->
  replaced_alone needle repl piece.
Proof.
  intros Hn H rest. rewrite (bracket_free_replace needle repl piece Hn H).
  destruct Hn as [t ->]. now apply replace_app_nohead.
Qed.

Lemma replace_concat (needle repl : pystr) (pieces : list pystr) :
  needle <> [] ->
  Forall (replaced_alone needle repl) pieces ->
  replace needle repl (List.concat pieces) =
  List.concat (map (replace needle repl) pieces).
Proof.
  intros Hn. induction 1 as [|p pieces Hp _ IH]; [now apply replace_nil|].
  cbn [List.concat map]. now rewrite Hp, IH.
Qed.

(** A text made of pieces that are replaced on their own goes through
    a table piece by piece. *)
Lemma replace_in_order_concat (table : list (pystr * pystr)) :
  Forall (fun nr => fst nr <> []) table ->
  forall pieces,
    Forall (replaced_alone_in table) pieces ->
    _replace_in_order (List.concat pieces) table =
    List.concat (map (fun p => _replace_in_order p table) pieces).
Proof.
  induction 1 as [|[needle repl] table Hn _ IH]; intros pieces H.
  - cbn [_replace_in_order]. now rewrite map_id.
  - cbn [_replace_in_order fst] in *.
    rewrite replace_concat; [|exact Hn|].
    + rewrite IH, map_map; [reflexivity|].
      apply Forall_map. eapply Forall_impl; [|exact H].
      intros p [_ Hp]. exact Hp.
    + eapply Forall_impl; [|exact H]. intros p [Hp _]. exact Hp.
Qed.

Lemma no_partial_in_sound (table : list (pystr * pystr)) :
  Forall (fun nr => fst nr <> []) table ->
  forall piece, no_partial_in table piece = true ->
                replaced_alone_in table piece.
Proof.
  induction 1 as [|[needle repl] table Hn _ IH]; intros piece H; [exact I|].
  cbn [no_partial_in replaced_alone_in fst] in *.
  apply andb_prop in H as [H1 H2]. split.
  - now apply no_partial_replaced_alone.
  - now apply IH.
Qed.

Lemma bracket_free_replaced_alone_in (table : list (pystr * pystr)) :
  Forall (fun nr => exists t, fst nr = 91 :: t) table ->
  forall piece, bracket_free piece -> replaced_alone_in table piece.
Proof.
  induction 1 as [|[needle repl] table Hn _ IH]; intros piece H; [exact I|].
  cbn [replaced_alone_in fst] in *. split.
  - now apply bracket_free_replaced_alone.
  - rewrite bracket_free_replace by assumption. now apply IH.
Qed.


End Pieces.

(** ** Well-formed documents are translated tag by tag *)

Section Documents.

Variable clock : datetime.

Lemma strip_tokens_as_table (tokens : list pystr) (s : pystr) :
  strip_tokens tokens s =
  _replace_in_order s (map (fun token => (token, [])) tokens).
Proof.
  revert s; induction tokens as [|token tokens IH]; intros s; [reflexivity|].
  cbn [strip_tokens map _replace_in_order]. apply IH.
Qed.

(** The renderer is: escape, strip the newlines, run the substitutions
    of the mode, wrap. *)
Lemma render_as_table (raw_text : pystr) (paper_config : PaperConfig)
    (user_name signature : option pystr) (is_crayon : bool)
    (now : option datetime) :
  fst (render_pencode_to_html clock raw_text paper_config user_name signature
         is_crayon now) =
  mode_wrap paper_config is_crayon
    (_replace_in_order (strip_newlines (encode_byondish_html raw_text))
       (substitutions clock paper_config user_name signature is_crayon now)).
Proof.
  unfold substitutions. rewrite replace_in_order_app, replace_in_order_cons.
  rewrite <- sign_stage_replace.
  destruct is_crayon.
  - rewrite <- strip_tokens_as_table. reflexivity.
  - reflexivity.
Qed.



Lemma substitutions_are_tags (paper_config : PaperConfig)
    (user_name signature : option pystr) (is_crayon : bool)
    (now : option datetime) :
  Forall (fun nr => exists t, fst nr = 91 :: t)
         (substitutions clock paper_config user_name signature is_crayon now).
Proof.
  unfold substitutions, common_replacements.
  destruct is_crayon; cbn [app map restricted_tokens pen_only_replacements];
    repeat (apply Forall_cons; [eexists; reflexivity|]); apply Forall_nil.
Qed.

Lemma tags_nonempty (table : list (pystr * pystr)) :
  Forall (fun nr => exists t, fst nr = 91 :: t) table ->
  Forall (fun nr => fst nr <> []) table.
Proof.
  intros H. eapply Forall_impl; [|exact H].
  intros [n r] [t Ht] E. cbn [fst] in *. subst n. discriminate.
Qed.






Lemma escape_char_bracket_free (c : char) :
  c <> 91 -> bracket_free (escape_char c).
Proof.
  intros Hc. unfold escape_char.
  repeat match goal with
         | |- context [if ?b then _ else _] => destruct b
         end;
    repeat (constructor; [discriminate || exact Hc|]); constructor.
Qed.

Lemma encode_bracket_free (s : pystr) :
  bracket_free s -> bracket_free (encode_byondish_html s).
Proof.
  intros H. rewrite encode_byondish_html_flat_map.
  apply Forall_flat_map. eapply Forall_impl; [|exact H].
  apply escape_char_bracket_free.
Qed.







Lemma without_newlines_app (a b : pystr) :
  without_newlines (a ++ b) = without_newlines a ++ without_newlines b.
Proof. apply filter_app. Qed.

Lemma encode_app (a b : pystr) :
  encode_byondish_html (a ++ b) =
  encode_byondish_html a ++ encode_byondish_html b.
Proof. rewrite !encode_byondish_html_flat_map. apply flat_map_app. Qed.

Lemma without_newlines_bracket_free (x : pystr) :
  bracket_free x -> bracket_free (without_newlines x).
Proof.
  intros H. apply Forall_forall. intros c Hc.
  apply filter_In in Hc as [Hc _]. revert c Hc. now apply Forall_forall.
Qed.

(** The escaped text of a document, newlines stripped, piece by piece. *)
Lemma escaped_pieces (doc : list piece) :
  strip_newlines (encode_byondish_html (flat_map source_of doc)) =
  List.concat
    (map (fun p => encode_byondish_html (without_newlines (source_of p))) doc).
Proof.
  rewrite strip_newlines_encode.
  change (filter (fun c => negb (is_newline c)) (flat_map source_of doc))
    with (without_newlines (flat_map source_of doc)).
  induction doc as [|p doc IH]; [reflexivity|].
  cbn [flat_map map List.concat].
  now rewrite without_newlines_app, encode_app, IH.
Qed.

(** *** Tags the renderer does not know *)











(** Pieces that go through the substitutions on their own are rendered
    piece by piece. *)
Lemma render_pieces (doc : list piece)
    (paper_config : PaperConfig) (user_name signature : option pystr)
    (is_crayon : bool) (now : option datetime) :
  Forall (piece_translated
            (substitutions clock paper_config user_name signature
               is_crayon now)) doc ->
  fst (render_pencode_to_html clock (flat_map source_of doc) paper_config
         user_name signature is_crayon now) =
  mode_wrap paper_config is_crayon
    (flat_map
       (html_of (substitutions clock paper_config user_name signature
                   is_crayon now))
       doc).
Proof.
  intros Hpieces.
  pose proof (substitutions_are_tags paper_config user_name signature
                is_crayon now) as Htags.
  set (T := substitutions clock paper_config user_name signature is_crayon now)
    in *.
  rewrite render_as_table. fold T. f_equal.
  rewrite escaped_pieces.
  rewrite replace_in_order_concat; [| now apply tags_nonempty |].
  - rewrite map_map, flat_map_concat_map. f_equal.
    apply map_ext_Forall. eapply Forall_impl; [|exact Hpieces].
    intros p [_ Hp]. exact Hp.
  - apply Forall_map. eapply Forall_impl; [|exact Hpieces].
    intros p [Hp _]. exact Hp.
Qed.

Lemma text_piece_translated (table : list (pystr * pystr)) (x : pystr) :
  Forall (fun nr => exists t, fst nr = 91 :: t) table ->
  bracket_free x -> piece_translated table (Text x).
Proof.
  intros Htags Hx. unfold piece_translated. cbn [source_of html_of].
  assert (bracket_free (encode_byondish_html (without_newlines x))) as Hb
    by now apply encode_bracket_free, without_newlines_bracket_free.
  split; [now apply bracket_free_replaced_alone_in|].
  now apply replace_in_order_bracket_free.
Qed.



(** *** Counting the fields of a document *)

Lemma no_partial_counted_alone (needle piece : pystr) :
  needle <> [] -> no_partial needle piece = true ->
  counted_alone needle piece.
Proof.
  intros Hn. revert piece.
  apply (replace_scan_ind needle
           (fun piece => no_partial needle piece = true ->
                         counted_alone needle piece));
    [exact Hn | | |].
  - intros _ rest. destruct needle; [easy | reflexivity].
  - intros r IH H rest. apply no_partial_tail in H.
    rewrite <- app_assoc, !count_hit by exact Hn.
    now rewrite (IH H rest).
  - intros c r E IH H rest.
    cbn [no_partial] in H. apply andb_prop in H as [Hc Hr].
    assert (starts_with needle ((c :: r) ++ rest) = false) as E'.
    { destruct (starts_with needle ((c :: r) ++ rest)) eqn:E2; [|reflexivity].
      apply starts_with_app_cases in E2 as [E2 | [E2 Hlen]]; [congruence|].
      apply Nat.ltb_lt in Hlen. now rewrite E2, Hlen in Hc. }
    cbn [app] in *. rewrite !count_miss by assumption.
    now apply IH.
Qed.

Lemma lt_free_count (t piece : pystr) :
  lt_free piece -> count (60 :: t) piece = 0%nat.
Proof.
  intros H. rewrite <- (app_nil_r piece).
  now rewrite count_app_nohead.
Qed.

Lemma lt_free_counted_alone (t piece : pystr) :
  lt_free piece -> counted_alone (60 :: t) piece.
Proof.
  intros H rest. rewrite (lt_free_count t piece H).
  now apply count_app_nohead.
Qed.

Lemma counted_alone_app (needle a b : pystr) :
  counted_alone needle a -> counted_alone needle b ->
  counted_alone needle (a ++ b).
Proof.
  intros Ha Hb rest.
  rewrite <- app_assoc, (Ha (b ++ rest)), (Hb rest), (Ha b). lia.
Qed.

Lemma count_concat (needle : pystr) (pieces : list pystr) :
  needle <> [] ->
  Forall (counted_alone needle) pieces ->
  counted_alone needle (List.concat pieces) /\
  count needle (List.concat pieces) =
  list_sum (map (count needle) pieces).
Proof.
  intros Hn. induction 1 as [|p pieces Hp _ [IH1 IH2]].
  - split; [|destruct needle; [easy | reflexivity]].
    intros rest. destruct needle; [easy | reflexivity].
  - cbn [List.concat map list_sum]. split.
    + now apply counted_alone_app.
    + now rewrite (Hp _), IH2.
Qed.


Lemma lt_free_count_field (piece : pystr) :
  lt_free piece -> count field_needle piece = 0%nat.
Proof. apply (lt_free_count (tl field_needle)). Qed.

Lemma lt_free_counted_alone_field (piece : pystr) :
  lt_free piece -> counted_alone field_needle piece.
Proof. apply (lt_free_counted_alone (tl field_needle)). Qed.

Ltac counted_piece :=
  first
    [ assumption
    | apply lt_free_counted_alone_field;
      first [ assumption
            | apply lt_free_bool; reflexivity
            | apply lt_free_cons; [discriminate | assumption] ]
    | apply no_partial_counted_alone; [discriminate | vm_compute; reflexivity] ].






Lemma mode_wrap_count (paper_config : PaperConfig) (is_crayon : bool)
    (inner : pystr) :
  config_lt_free paper_config ->
  counted_alone field_needle inner ->
  count field_needle (mode_wrap paper_config is_crayon inner) =
  count field_needle inner.
Proof.
  intros (_ & Hd & _ & Hc & Hp) Hi.
  destruct is_crayon; cbn [mode_wrap].
  - change (crayon_wrap paper_config inner)
      with (List.concat
              [ lit "<font face="; dquote :: crayon_font paper_config;
                dquote :: lit " color="; pen_color paper_config; lit ">";
                lit "<b>"; inner; lit "</b></font>" ]).
    assert (Forall (counted_alone field_needle)
              [ lit "<font face="; dquote :: crayon_font paper_config;
                dquote :: lit " color="; pen_color paper_config; lit ">";
                lit "<b>"; inner; lit "</b></font>" ]) as H
      by (repeat (apply Forall_cons; [counted_piece|]); apply Forall_nil).
    apply count_concat in H as [_ H]; [|discriminate].
    rewrite H. cbn [map list_sum].
    rewrite (lt_free_count_field (pen_color paper_config) Hp).
    rewrite (lt_free_count_field (dquote :: crayon_font paper_config))
      by (apply lt_free_cons; [discriminate | exact Hc]).
    change (count field_needle (lit "<font face=")) with 0%nat.
    change (count field_needle (dquote :: lit " color=")) with 0%nat.
    change (count field_needle (lit ">")) with 0%nat.
    change (count field_needle (lit "<b>")) with 0%nat.
    change (count field_needle (lit "</b></font>")) with 0%nat.
    cbn [list_sum fold_right]. lia.
  - change (pen_wrap paper_config inner)
      with (List.concat
              [ lit "<font face="; dquote :: default_font paper_config;
                dquote :: lit " color="; pen_color paper_config; lit ">";
                inner; lit "</font>" ]).
    assert (Forall (counted_alone field_needle)
              [ lit "<font face="; dquote :: default_font paper_config;
                dquote :: lit " color="; pen_color paper_config; lit ">";
                inner; lit "</font>" ]) as H
      by (repeat (apply Forall_cons; [counted_piece|]); apply Forall_nil).
    apply count_concat in H as [_ H]; [|discriminate].
    rewrite H. cbn [map list_sum].
    rewrite (lt_free_count_field (pen_color paper_config) Hp).
    rewrite (lt_free_count_field (dquote :: default_font paper_config))
      by (apply lt_free_cons; [discriminate | exact Hd]).
    change (count field_needle (lit "<font face=")) with 0%nat.
    change (count field_needle (dquote :: lit " color=")) with 0%nat.
    change (count field_needle (lit ">")) with 0%nat.
    change (count field_needle (lit "</font>")) with 0%nat.
    cbn [list_sum fold_right]. lia.
Qed.

(** Without the provisos a field can come from elsewhere: a station
    name that holds the tag puts one in a text that has none. *)
Remark station_name_adds_field :
  snd (render_pencode_to_html example_now (lit "[station]")
         (mkPaperConfig (lit "[field]") (lit "Verdana")
            (lit "Times New Roman") (lit "Comic Sans MS") (lit "black"))
         None None false None) = 1%Z.
Proof. vm_compute. reflexivity. Qed.



(** X3: A text without an opening bracket is only escaped and stripped of
    its newline characters, in both modes and under every
    configuration: no substitution touches it; and it makes no field
    when the configuration holds no less-than sign. *)
Theorem bracket_free_text_rendered (x : pystr) (paper_config : PaperConfig)
    (user_name signature : option pystr) (is_crayon : bool)
    (now : option datetime) :
  bracket_free x ->
  fst (render_pencode_to_html clock x paper_config user_name signature
         is_crayon now) =
    mode_wrap paper_config is_crayon
      (encode_byondish_html (without_newlines x))
  /\ (config_lt_free paper_config ->
      snd (render_pencode_to_html clock x paper_config user_name signature
             is_crayon now) = 0%Z).
Proof.
  intros Hx.
  assert (fst (render_pencode_to_html clock x paper_config user_name signature
                 is_crayon now) =
          mode_wrap paper_config is_crayon
            (encode_byondish_html (without_newlines x))) as H.
  { rewrite <- (app_nil_r x) at 1.
    change (x ++ []) with (flat_map source_of [Text x]).
    rewrite render_pieces.
    - cbn [flat_map html_of]. now rewrite app_nil_r.
    - apply Forall_cons; [|apply Forall_nil].
      apply text_piece_translated; [apply substitutions_are_tags | exact Hx]. }
  split; [exact H|]. intros Hcfg.
  change (snd (render_pencode_to_html clock x paper_config user_name signature
                 is_crayon now))
    with (Z.of_nat
            (count field_needle
               (fst (render_pencode_to_html clock x paper_config user_name
                       signature is_crayon now)))).
  rewrite H, mode_wrap_count.
  - now rewrite lt_free_count_field by apply encode_lt_free.
  - exact Hcfg.
  - apply lt_free_counted_alone_field, encode_lt_free.
Qed.

End Documents.

(** ** The document around the fragment *)

Section Document.

Lemma starts_with_barrier (needle u rest : pystr) (c : char) :
  starts_with needle (u ++ c :: rest) = true ->
  starts_with needle u = true \/ In c needle.
Proof.
  revert u; induction needle as [|a needle IH]; intros u H; [now left|].
  destruct u as [|b u].
  - cbn [app starts_with] in H. apply andb_prop in H as [H _].
    apply N.eqb_eq in H. right. now left.
  - cbn [app starts_with] in H. apply andb_prop in H as [Hab H].
    destruct (IH u H) as [Hl | Hr].
    + left. cbn [starts_with]. now rewrite Hab, Hl.
    + right. now right.
Qed.

(** Across a character that the needle does not hold, the two sides
    are counted apart. *)
Lemma count_barrier (needle s rest : pystr) (c : char) :
  needle <> [] -> ~ In c needle ->
  count needle (s ++ c :: rest) =
  (count needle s + count needle (c :: rest))%nat.
Proof.
  intros Hn Hc. revert s.
  apply (replace_scan_ind needle
           (fun s => count needle (s ++ c :: rest) =
                     (count needle s + count needle (c :: rest))%nat));
    [exact Hn | | |].
  - destruct needle; [easy | reflexivity].
  - intros r IH. rewrite <- app_assoc, !count_hit by exact Hn.
    now rewrite IH.
  - intros d r E IH.
    assert (starts_with needle ((d :: r) ++ c :: rest) = false) as E'.
    { destruct (starts_with needle ((d :: r) ++ c :: rest)) eqn:E2;
        [|reflexivity].
      apply starts_with_barrier in E2 as [E2 | E2]; [congruence | easy]. }
    cbn [app] in *. rewrite !count_miss by assumption. exact IH.
Qed.

Lemma document_head_counted :
  counted_alone field_needle document_head /\
  count field_needle document_head = 0%nat.
Proof.
  split; [|vm_compute; reflexivity].
  apply no_partial_counted_alone; [discriminate | vm_compute; reflexivity].
Qed.

(** The snippet is counted as it was: the head and the tail of the
    document add no field and break none. *)
Lemma wrap_in_document_count (snippet : pystr) :
  count field_needle (wrap_in_document snippet) = count field_needle snippet.
Proof.
  unfold wrap_in_document.
  destruct document_head_counted as [H1 H2].
  rewrite (H1 _), H2.
  unfold document_tail.
  rewrite count_barrier; [| discriminate |].
  - change (count field_needle (LF :: lit "</body>" ++ LF :: lit "</html>" ++ [LF]))
      with 0%nat.
    lia.
  - vm_compute. intuition discriminate.
Qed.

(** X7: The field count that [_render_preview] hands over with the document
    is the number of field spans in that document, and the document is
    the fragment of the renderer between the fixed head and tail. *)
Theorem preview_field_count (st : InputState) (raw_text : pystr)
    (clock : datetime) :
  snd (_render_preview st raw_text clock) =
    Z.of_nat (count field_needle (fst (_render_preview st raw_text clock)))
  /\ fst (_render_preview st raw_text clock) =
     document_head ++
     fst (render_pencode_to_html clock raw_text (_paper_config st)
            (_user_name st) (_signature st) (_is_crayon st) (Some clock)) ++
     document_tail.
Proof.
  unfold _render_preview.
  destruct (render_pencode_to_html clock raw_text (_paper_config st)
              (_user_name st) (_signature st) (_is_crayon st) (Some clock))
    as [snippet field_count] eqn:E.
  cbn [fst snd]. split; [|reflexivity].
  rewrite wrap_in_document_count.
  unfold render_pencode_to_html in E. now inversion E.
Qed.

End Document.


(** ** The resolved signature and the dialogs *)

Section Trimming.

Lemma lstrip_head (s : pystr) (c : char) (r : pystr) :
  lstrip s = c :: r -> isspace c = false.
Proof.
  induction s as [|d s IH]; [discriminate|].
  cbn [lstrip]. destruct (isspace d) eqn:E; [exact IH|].
  intros [= <- _]. exact E.
Qed.

Lemma lstrip_fixed (s : pystr) :
  (forall c r, s = c :: r -> isspace c = false) -> lstrip s = s.
Proof.
  destruct s as [|c s]; [reflexivity|].
  intros H. cbn [lstrip]. now rewrite (H c s eq_refl).
Qed.

Lemma lstrip_idempotent (s : pystr) : lstrip (lstrip s) = lstrip s.
Proof.
  apply lstrip_fixed. intros c r. apply lstrip_head.
Qed.

(** [lstrip] keeps an end of the string. *)
Lemma lstrip_suffix (s : pystr) : exists w, s = w ++ lstrip s.
Proof.
  induction s as [|c s [w IH]]; [now exists []|].
  cbn [lstrip]. destruct (isspace c).
  - exists (c :: w). cbn [app]. now f_equal.
  - now exists [].
Qed.

(** [rstrip] keeps a beginning of it. *)
Lemma rstrip_prefix (s : pystr) : exists w, s = rstrip s ++ w.
Proof.
  unfold rstrip. destruct (lstrip_suffix (rev s)) as [w Hw].
  exists (rev w).
  rewrite <- rev_app_distr, <- Hw. symmetry. apply rev_involutive.
Qed.

Lemma rstrip_idempotent (s : pystr) : rstrip (rstrip s) = rstrip s.
Proof.
  unfold rstrip. now rewrite rev_involutive, lstrip_idempotent.
Qed.

Lemma lstrip_rstrip_lstrip (s : pystr) :
  lstrip (rstrip (lstrip s)) = rstrip (lstrip s).
Proof.
  apply lstrip_fixed. intros c r Hc.
  destruct (rstrip_prefix (lstrip s)) as [w Hw].
  rewrite Hc in Hw. cbn [app] in Hw.
  now apply (lstrip_head s c (r ++ w)).
Qed.

Lemma strip_idempotent (s : pystr) : strip (strip s) = strip s.
Proof.
  unfold strip. now rewrite lstrip_rstrip_lstrip, rstrip_idempotent.
Qed.

Lemma strip_first (s : pystr) (c : char) (r : pystr) :
  strip s = c :: r -> isspace c = false.
Proof.
  intros H. apply (lstrip_head (strip s) c r).
  unfold strip in *. now rewrite lstrip_rstrip_lstrip.
Qed.

Lemma strip_last (s : pystr) (c : char) (r : pystr) :
  rev (strip s) = c :: r -> isspace c = false.
Proof.
  unfold strip, rstrip. rewrite rev_involutive. apply lstrip_head.
Qed.

Lemma nonblank_stripped (x : option pystr) (t : pystr) :
  nonblank x = Some t -> t <> [] /\ exists s, t = strip s.
Proof.
  destruct x as [s|]; [|discriminate]. cbn [nonblank].
  destruct (truthy s && truthy (strip s)) eqn:E; [|discriminate].
  intros [= <-]. apply andb_prop in E as [_ E].
  split; [|now exists s]. now destruct (strip s).
Qed.

Lemma resolved_signature_stripped (signature user_name : option pystr) :
  resolved_signature signature user_name <> [] /\
  exists s, resolved_signature signature user_name = strip s.
Proof.
  unfold resolved_signature.
  destruct (nonblank signature) eqn:Es; [now apply (nonblank_stripped signature)|].
  destruct (nonblank user_name) eqn:Eu; [now apply (nonblank_stripped user_name)|].
  split; [discriminate|]. exists (lit "Anonymous"). reflexivity.
Qed.

(** X8: The resolved signature is never empty and has no whitespace at
    either end: trimming it again changes nothing, and its first and
    its last character are no whitespace. *)
Theorem resolved_signature_trimmed_nonempty (signature user_name : option pystr) :
  resolved_signature signature user_name <> []
  /\ strip (resolved_signature signature user_name) =
     resolved_signature signature user_name
  /\ (exists c r, resolved_signature signature user_name = c :: r /\
                  isspace c = false)
  /\ (exists c r, rev (resolved_signature signature user_name) = c :: r /\
                  isspace c = false).
Proof.
  destruct (resolved_signature_stripped signature user_name) as [Hne [s Hs]].
  rewrite Hs in *. split; [exact Hne | split; [apply strip_idempotent | split]].
  - destruct (strip s) as [|c r] eqn:E; [easy|].
    exists c, r. split; [reflexivity | now apply (strip_first s c r)].
  - destruct (rev (strip s)) as [|c r] eqn:E.
    + apply (f_equal (@rev char)) in E. rewrite rev_involutive in E. easy.
    + exists c, r. split; [reflexivity | now apply (strip_last s c r)].
Qed.

Lemma nonblank_or_none_strip (text : pystr) :
  nonblank (or_none (strip text)) = nonblank (Some text).
Proof.
  unfold or_none. cbn [nonblank].
  destruct (truthy (strip text)) eqn:E.
  - cbn [nonblank]. rewrite strip_idempotent, E.
    destruct text; [discriminate | reflexivity].
  - now rewrite andb_false_r.
Qed.

(** X9: The dialogs store the trimmed answer, or nothing for a blank one;
    the signature that is resolved from what they stored is the one
    resolved from the answers as they were typed.  A cancelled dialog
    changes nothing, and what is stored is never a blank string. *)
Theorem dialogs_keep_resolution (st : InputState)
    (signature_text user_text : pystr) :
  (let st' := set_user_name (set_signature st signature_text true)
                user_text true in
   resolved_signature (_signature st') (_user_name st') =
   resolved_signature (Some signature_text) (Some user_text))
  /\ set_signature st signature_text false = st
  /\ set_user_name st user_text false = st
  /\ match _signature (set_signature st signature_text true) with
     | None => strip signature_text = []
     | Some s => s = strip signature_text /\ s <> []
     end.
Proof.
  split; [|split; [reflexivity | split; [reflexivity|]]].
  - cbn [set_user_name set_signature _signature _user_name].
    unfold resolved_signature. now rewrite !nonblank_or_none_strip.
  - cbn [set_signature _signature]. unfold or_none.
    destruct (strip signature_text); cbn [truthy]; [reflexivity|].
    split; [reflexivity | discriminate].
Qed.

End Trimming.

(** ** The Escaper as a code *)

Section EscaperCode.

Lemma escape_char_length (c : char) :
  (1 <= List.length (escape_char c) <= 6)%nat.
Proof.
  unfold escape_char.
  repeat match goal with
         | |- context [if ?b then _ else _] => destruct b
         end; cbn; lia.
Qed.

Lemma flat_map_escape_length (s : pystr) :
  (List.length s <= List.length (flat_map escape_char s) <= 6 * List.length s)%nat.
Proof.
  induction s as [|c s IH]; [cbn; lia|].
  cbn [flat_map]. rewrite length_app.
  pose proof (escape_char_length c). cbn [List.length]. lia.
Qed.

(** The reference of a character tells the character, whatever follows. *)
Lemma escape_char_decodes (c d : char) (x y : pystr) :
  escape_char c ++ x = escape_char d ++ y -> c = d /\ x = y.
Proof.
  unfold escape_char.
  destruct (N.eqb_spec c 38) as [->|Hc1];
    [|destruct (N.eqb_spec c 60) as [->|Hc2];
      [|destruct (N.eqb_spec c 62) as [->|Hc3];
        [|destruct (N.eqb_spec c 34) as [->|Hc4];
          [|destruct (N.eqb_spec c 39) as [->|Hc5]]]]];
    (destruct (N.eqb_spec d 38) as [->|Hd1];
     [|destruct (N.eqb_spec d 60) as [->|Hd2];
       [|destruct (N.eqb_spec d 62) as [->|Hd3];
         [|destruct (N.eqb_spec d 34) as [->|Hd4];
           [|destruct (N.eqb_spec d 39) as [->|Hd5]]]]]);
    cbn [lit app N_of_ascii N_of_digits N.add N.mul];
    intros H; try discriminate H;
    try (injection H; intros; subst; try congruence; now split).
Qed.

Lemma flat_map_escape_injective (a b : pystr) :
  flat_map escape_char a = flat_map escape_char b -> a = b.
Proof.
  revert b; induction a as [|c a IH]; intros [|d b] H.
  - reflexivity.
  - cbn [flat_map] in H. pose proof (escape_char_length d).
    destruct (escape_char d); [cbn in *; lia | discriminate].
  - cbn [flat_map] in H. pose proof (escape_char_length c).
    destruct (escape_char c); [cbn in *; lia | discriminate].
  - cbn [flat_map] in H. apply escape_char_decodes in H as [-> H].
    f_equal. now apply IH.
Qed.

(** X10: Escaping works character by character: it distributes over
    concatenation, it loses nothing (two texts with the same escaped
    text are the same text), and the escaped text is at least as long
    as the text and at most six times as long. *)
Theorem encode_byondish_html_code :
  (forall a b, encode_byondish_html (a ++ b) =
               encode_byondish_html a ++ encode_byondish_html b)
  /\ (forall a b, encode_byondish_html a = encode_byondish_html b -> a = b)
  /\ (forall s, (List.length s <= List.length (encode_byondish_html s)
                 <= 6 * List.length s)%nat).
Proof.
  split; [|split].
  - intros a b. rewrite !encode_byondish_html_flat_map. apply flat_map_app.
  - intros a b. rewrite !encode_byondish_html_flat_map.
    apply flat_map_escape_injective.
  - intros s. rewrite encode_byondish_html_flat_map.
    apply flat_map_escape_length.
Qed.

End EscaperCode.

Lemma encode_byondish_html_code_witness : lit "a<b" = lit "a<b".
Proof.
  apply (proj1 (proj2 encode_byondish_html_code) (lit "a<b") (lit "a<b")).
  reflexivity.
Defined.

(** ** Templates and the cursor *)

Section Templates.

Lemma find_index_absent (sub s : pystr) :
  contains sub s = false -> find_index sub s = None.
Proof.
  induction s as [|c s IH]; cbn [contains find_index]; intros H;
    apply orb_false_elim in H as [H1 H2]; rewrite H1; [reflexivity|].
  now rewrite (IH H2).
Qed.

Lemma find_index_after (h : char) (t before s : pystr) :
  Forall (fun c => c <> h) before ->
  starts_with (h :: t) s = true ->
  find_index (h :: t) (before ++ s) = Some (List.length before).
Proof.
  intros Hb Hs. induction Hb as [|c before Hc _ IH].
  - destruct s; cbn [app List.length find_index]; now rewrite Hs.
  - cbn [app List.length find_index].
    rewrite starts_with_head by congruence. now rewrite IH.
Qed.

(** X6: A template with the marker once, after a stretch that does not hold
    the marker's first character: the marker is taken out, and the
    cursor goes back over what followed the marker; so, when the
    insertion started at [start] and the cursor was left at its end,
    the cursor lands where the marker was.  Without the marker the
    template is inserted as it is and the cursor is not moved. *)
Theorem insert_template_cursor (h : char) (t before after : pystr)
    (start : Z) :
  Forall (fun c => c <> h) before ->
  contains (h :: t) after = false ->
  _insert_template (before ++ (h :: t) ++ after) (h :: t)
    (start + Z.of_nat (List.length (before ++ after))) =
    (before ++ after, Some (start + Z.of_nat (List.length before))%Z)
  /\ _insert_template after (h :: t) (start + Z.of_nat (List.length after)) =
     (after, None).
Proof.
  intros Hb Ha. unfold _insert_template, str_find. split.
  - rewrite (find_index_after h t before _ Hb (starts_with_app (h :: t) after)).
    rewrite replace_app_nohead by exact Hb.
    rewrite replace_hit by discriminate.
    rewrite (replace_absent (h :: t) [] after) by (discriminate || exact Ha).
    cbn [app].
    replace (Z.of_nat (List.length before) >=? 0)%Z with true
      by (symmetry; apply Z.geb_le; lia).
    f_equal. f_equal. rewrite length_app. lia.
  - rewrite (find_index_absent _ _ Ha).
    rewrite (replace_absent (h :: t) [] after) by (discriminate || exact Ha).
    reflexivity.
Qed.

End Templates.

Lemma insert_template_cursor_witness :
  _insert_template
    (lit "[list]" ++ LF :: lit "[*] <<CURSOR>>" ++ LF :: lit "[/list]" ++ [LF])
    (lit "<<CURSOR>>") 120 =
  (lit "[list]" ++ LF :: lit "[*] " ++ LF :: lit "[/list]" ++ [LF],
   Some 111%Z).
Proof.
  apply (proj1 (insert_template_cursor 60 (lit "<CURSOR>>")
                  (lit "[list]" ++ LF :: lit "[*] ")
                  (LF :: lit "[/list]" ++ [LF]) 100%Z
                  ltac:(repeat (constructor; [discriminate|]); constructor)
                  eq_refl)).
Defined.

(** ** The toolbar's pairs of tags *)

Section Toolbar.

Variable clock : datetime.

Lemma without_newlines_psep (s : pystr) :
  without_newlines (replace [PSEP] [LF] s) = without_newlines s.
Proof.
  rewrite replace_char. unfold without_newlines.
  induction s as [|c s IH]; [reflexivity|].
  cbn [flat_map]. rewrite filter_app, IH. cbn [filter].
  destruct (N.eqb_spec c PSEP) as [->|Hc]; [reflexivity|].
  cbn [filter]. now destruct (negb (is_newline c)).
Qed.

Lemma replace_psep_bracket_free (s : pystr) :
  bracket_free s -> bracket_free (replace [PSEP] [LF] s).
Proof.
  intros H. apply replace_Forall; [discriminate | | exact H].
  repeat constructor. discriminate.
Qed.

(** What [_wrap_selection] inserts is the opening tag, a text, the
    closing tag. *)
Lemma wrap_selection_pieces (opening_tag closing_tag selected_text : pystr)
    (position_after : Z) :
  exists x,
    fst (_wrap_selection opening_tag closing_tag selected_text position_after) =
      flat_map source_of [Tag opening_tag; Text x; Tag closing_tag]
    /\ without_newlines x = without_newlines selected_text
    /\ (bracket_free selected_text -> bracket_free x).
Proof.
  unfold _wrap_selection. destruct selected_text as [|c s]; cbn [truthy].
  - exists []. cbn [fst flat_map source_of app].
    now rewrite app_nil_r.
  - exists (replace [PSEP] [LF] (c :: s)). cbn [fst flat_map source_of].
    rewrite app_nil_r. split; [reflexivity | split].
    + apply without_newlines_psep.
    + apply replace_psep_bracket_free.
Qed.

Lemma render_wrapped (paper_config : PaperConfig)
    (user_name signature : option pystr) (is_crayon : bool)
    (now : option datetime)
    (opening_tag closing_tag selected_text : pystr) (position_after : Z) :
  bracket_free selected_text ->
  piece_translated
    (substitutions clock paper_config user_name signature is_crayon now)
    (Tag opening_tag) ->
  piece_translated
    (substitutions clock paper_config user_name signature is_crayon now)
    (Tag closing_tag) ->
  fst (render_pencode_to_html clock
         (fst (_wrap_selection opening_tag closing_tag selected_text
                 position_after))
         paper_config user_name signature is_crayon now) =
  mode_wrap paper_config is_crayon
    (tag_html (substitutions clock paper_config user_name signature
                 is_crayon now) opening_tag ++
     encode_byondish_html (without_newlines selected_text) ++
     tag_html (substitutions clock paper_config user_name signature
                 is_crayon now) closing_tag).
Proof.
  intros Hsel Ho Hc.
  destruct (wrap_selection_pieces opening_tag closing_tag selected_text
              position_after) as (x & -> & Hx & Hb).
  rewrite render_pieces.
  - cbn [flat_map html_of]. now rewrite Hx, app_nil_r.
  - repeat (apply Forall_cons; [|]); [exact Ho | | exact Hc | apply Forall_nil].
    apply text_piece_translated; [apply substitutions_are_tags | now apply Hb].
Qed.

Ltac toolbar_tag :=
  unfold piece_translated; cbn [source_of html_of];
  match goal with
  | |- context [encode_byondish_html (without_newlines ?t)] =>
      replace (encode_byondish_html (without_newlines t)) with t
        by (vm_compute; reflexivity)
  end;
  split;
  [ apply no_partial_in_sound;
    [ apply tags_nonempty, substitutions_are_tags
    | vm_compute; reflexivity ]
  | vm_compute; reflexivity ].

(** The tags of the toolbar pairs go through the substitutions on their
    own, whatever the configuration, the signature and the time are. *)
Lemma wrap_actions_translated (paper_config : PaperConfig)
    (user_name signature : option pystr) (is_crayon : bool)
    (now : option datetime) :
  Forall (fun oc =>
            piece_translated
              (substitutions clock paper_config user_name signature
                 is_crayon now) (Tag (fst oc)) /\
            piece_translated
              (substitutions clock paper_config user_name signature
                 is_crayon now) (Tag (snd oc)))
         wrap_actions.
Proof.
  unfold wrap_actions.
  destruct is_crayon;
    repeat (apply Forall_cons; [split; cbn [fst snd]; toolbar_tag|]);
    apply Forall_nil.
Qed.


(** X5: Every pair of tags of the toolbar, put around a selection without
    brackets by [_wrap_selection], renders to the selection (escaped,
    without its line breaks) inside the HTML element of the pair; in
    crayon mode the small pair renders to the selection alone.  With
    nothing selected the cursor is put between the two tags. *)
Theorem toolbar_wrap_renders (paper_config : PaperConfig)
    (user_name signature : option pystr) (now : option datetime)
    (selected_text : pystr) (position_after : Z) :
  bracket_free selected_text ->
  Forall2
    (fun oc h =>
       fst (render_pencode_to_html clock
              (fst (_wrap_selection (fst oc) (snd oc) selected_text
                      position_after))
              paper_config user_name signature false now) =
       pen_wrap paper_config
         (fst h ++ encode_byondish_html (without_newlines selected_text) ++
          snd h))
    wrap_actions
    [ (lit "<B>", lit "</B>"); (lit "<I>", lit "</I>"); (lit "<U>", lit "</U>");
      (lit "<center>", lit "</center>");
      (lit "<H1>", lit "</H1>"); (lit "<H2>", lit "</H2>");
      (lit "<H3>", lit "</H3>");
      (lit "<font size=" ++ dquote :: lit "4" ++ dquote :: lit ">", lit "</font>");
      (lit "<font size=" ++ dquote :: lit "1" ++ dquote :: lit ">", lit "</font>") ]
  /\ Forall2
       (fun oc h =>
          fst (render_pencode_to_html clock
                 (fst (_wrap_selection (fst oc) (snd oc) selected_text
                         position_after))
                 paper_config user_name signature true now) =
          crayon_wrap paper_config
            (fst h ++ encode_byondish_html (without_newlines selected_text) ++
             snd h))
       wrap_actions
       [ (lit "<B>", lit "</B>"); (lit "<I>", lit "</I>");
         (lit "<U>", lit "</U>"); (lit "<center>", lit "</center>");
         (lit "<H1>", lit "</H1>"); (lit "<H2>", lit "</H2>");
         (lit "<H3>", lit "</H3>");
         (lit "<font size=" ++ dquote :: lit "4" ++ dquote :: lit ">",
          lit "</font>");
         ([], []) ]
  /\ (forall opening_tag closing_tag start,
         _wrap_selection opening_tag closing_tag []
           (start + Z.of_nat (List.length (opening_tag ++ closing_tag))) =
         (opening_tag ++ closing_tag,
          Some (start + Z.of_nat (List.length opening_tag))%Z)).
Proof.
  intros Hsel. split; [|split].
  - pose proof (wrap_actions_translated paper_config user_name signature
                  false now) as H.
    unfold wrap_actions in *.
    repeat (apply Forall_cons_iff in H as [[Ho Hc] H];
            apply Forall2_cons;
            [cbn [fst snd] in *; rewrite render_wrapped by assumption;
             reflexivity | clear Ho Hc]).
    apply Forall2_nil.
  - pose proof (wrap_actions_translated paper_config user_name signature
                  true now) as H.
    unfold wrap_actions in *.
    repeat (apply Forall_cons_iff in H as [[Ho Hc] H];
            apply Forall2_cons;
            [cbn [fst snd] in *; rewrite render_wrapped by assumption;
             reflexivity | clear Ho Hc]).
    apply Forall2_nil.
  - intros o c start. unfold _wrap_selection. cbn [truthy].
    f_equal. f_equal. rewrite length_app. lia.
Qed.

End Toolbar.

Lemma toolbar_wrap_renders_witness :
  fst (render_pencode_to_html example_now
         (fst (_wrap_selection (lit "[b]") (lit "[/b]")
                 (lit "a<" ++ PSEP :: lit "b") 0))
         default_config None None false None) =
  pen_wrap default_config (lit "<B>a&lt;b</B>").
Proof.
  pose proof (proj1 (toolbar_wrap_renders example_now default_config None None
                       None (lit "a<" ++ PSEP :: lit "b") 0%Z
                       ltac:(repeat (constructor; [discriminate|]); constructor)))
    as H.
  apply Forall2_cons_iff in H as [H _]. exact H.
Defined.

(** ** The windows of [main] *)

Section Geometry.

Local Open Scope Z_scope.

(** X11: Each window is at least 900 wide; the preview starts where the input
    window ends; the pair is centred on the available area, the left
    margin being the right one or one less; and the pair lies within
    the available area exactly when that is at least 1800 wide: on a
    narrower screen both windows keep their 900 and the input window
    starts left of the area. *)
Theorem windows_side_by_side (available_x available_width : Z) :
  900 <= window_width available_width
  /\ preview_x available_x available_width =
     left_x available_x available_width + window_width available_width
  /\ (let left_margin := left_x available_x available_width - available_x in
      let right_margin :=
        (available_x + available_width) -
        (preview_x available_x available_width + window_width available_width) in
      left_margin <= right_margin <= left_margin + 1)
  /\ (1800 <= available_width ->
      available_x <= left_x available_x available_width /\
      preview_x available_x available_width + window_width available_width
      <= available_x + available_width)
  /\ (available_width < 1800 ->
      window_width available_width = 900 /\
      left_x available_x available_width < available_x).
Proof.
  unfold preview_x, left_x, window_width.
  pose proof (Z.div_mod available_width 2 ltac:(lia)) as H1.
  pose proof (Z.mod_pos_bound available_width 2 ltac:(lia)) as H2.
  set (w := Z.max 900 (available_width / 2)) in *.
  pose proof (Z.div_mod (available_width - 2 * w) 2 ltac:(lia)) as H3.
  pose proof (Z.mod_pos_bound (available_width - 2 * w) 2 ltac:(lia)) as H4.
  assert (900 <= w /\ available_width / 2 <= w /\
          (w = 900 \/ w = available_width / 2)) as Hw
    by (unfold w; lia).
  repeat split; cbv zeta; try lia.
Qed.

End Geometry.

Lemma windows_side_by_side_witness :
  (0 <= left_x 0 1920 /\ preview_x 0 1920 + window_width 1920 <= 0 + 1920)%Z.
Proof.
  apply (proj1 (proj2 (proj2 (proj2 (windows_side_by_side 0 1920))))).
  vm_compute. discriminate.
Defined.





Lemma bracket_free_text_rendered_witness :
  fst (render_pencode_to_html example_now (lit "a < b] & c" ++ [LF])
         default_config None None true None) =
  crayon_wrap default_config (lit "a &lt; b] &amp; c").
Proof.
  apply (bracket_free_text_rendered example_now (lit "a < b] & c" ++ [LF])
           default_config None None true None).
  apply bracket_free_bool; reflexivity.
Defined.
